(** * openMVG sample [image_spherical_to_pinholes]: the panorama converter

    A shallow embedding of [main] of [main_pano_converter.cpp] and the
    properties of its command-line checks, its camera rig, its demo mode and
    its conversion loop.

    [main] is written once, over an interface [Arith] for the C++ [double]
    operations it uses.  Two instances are provided: [binary64], the IEEE 754
    arithmetic the compiled program runs on (primitive floats; the libm
    functions are arguments), and [exact], the real numbers, in which the
    formulas on angles and focal lengths are read.

    An [int] is an integer: the only arithmetic [main] does on one is the
    increment of a loop counter that stays below its bound, which cannot wrap.

    Everything [main] calls that lives outside the file (command-line reader,
    file system, image codec, camera models, resampler) is a field of the
    record [World]; the file system is a state that is threaded through the
    calls, and the run yields its exit code, the trace of what it printed and
    wrote, and the final file-system state. *)

From Stdlib Require Import ZArith List String Ascii Bool Lia.
From Stdlib Require Import Reals Lra.
From Stdlib Require Import Floats Uint63 DecimalString.
From Stdlib Require DecimalZ DecimalPos.
Import ListNotations.

Local Open Scope Z_scope.
Local Open Scope list_scope.

Set Implicit Arguments.

(** ** The [double] operations used by [main] *)

Record Arith : Type := {
  double : Type;
  of_int : Z -> double;                      (* static_cast<double>(int), literals *)
  dadd : double -> double -> double;
  dmul : double -> double -> double;
  ddiv : double -> double -> double;
  dneg : double -> double;
  dleb : double -> double -> bool;           (* operator<= *)
  M_PI : double;
  dtan : double -> double;
  dcos : double -> double;
  dsin : double -> double
}.

(** IEEE 754 binary64.  [int] values are converted exactly. *)
Definition float_of_Z (z : Z) : float :=
  if z <? 0 then PrimFloat.opp (PrimFloat.of_uint63 (Uint63.of_Z (- z)))
  else PrimFloat.of_uint63 (Uint63.of_Z z).

Definition binary64 (libm_tan libm_cos libm_sin : float -> float) : Arith := {|
  double := float;
  of_int := float_of_Z;
  dadd := PrimFloat.add;
  dmul := PrimFloat.mul;
  ddiv := PrimFloat.div;
  dneg := PrimFloat.opp;
  dleb := PrimFloat.leb;
  M_PI := 0x1.921fb54442d18p+1%float;
  dtan := libm_tan;
  dcos := libm_cos;
  dsin := libm_sin
|}.

(** The real numbers. *)
Definition Rleb (x y : R) : bool := if Rle_dec x y then true else false.

Definition exact : Arith := {|
  double := R;
  of_int := IZR;
  dadd := Rplus;
  dmul := Rmult;
  ddiv := Rdiv;
  dneg := Ropp;
  dleb := Rleb;
  M_PI := PI;
  dtan := Rtrigo1.tan;
  dcos := Rtrigo_def.cos;
  dsin := Rtrigo_def.sin
|}.

(** ** Geometry *)

Inductive svgStyle : Type :=
| svgStyle_default                       (* svgStyle() *)
| svgStyle_fill (col : string).          (* svgStyle().fill(col) *)


Section Geometry.
Variable A : Arith.

Definition Vec2 : Type := (double A * double A)%type.
Definition Vec3 : Type := (double A * double A * double A)%type.
Definition Mat3 : Type := (Vec3 * Vec3 * Vec3)%type.     (* three rows *)

Definition dot3 (r v : Vec3) : double A :=
  let '(a, b, c) := r in
  let '(x, y, z) := v in
  dadd A (dadd A (dmul A a x) (dmul A b y)) (dmul A c z).

(** [Mat3 * Vec3] *)
Definition mat_vec (m : Mat3) (v : Vec3) : Vec3 :=
  let '(r0, r1, r2) := m in (dot3 r0 v, dot3 r1 v, dot3 r2 v).

Definition Identity3 : Mat3 :=
  ((of_int A 1, of_int A 0, of_int A 0),
   (of_int A 0, of_int A 1, of_int A 0),
   (of_int A 0, of_int A 0, of_int A 1)).

(** Modelled from the spec: [RotationAroundY] is declared in openMVG's
    numeric module, outside this sample.  Section 4.1
    describes it as the rotation of the given angle about the vertical (Y)
    axis. *)
Definition RotationAroundY (angle : double A) : Mat3 :=
  ((dcos A angle,          of_int A 0, dsin A angle),
   (of_int A 0,            of_int A 1, of_int A 0),
   (dneg A (dsin A angle), of_int A 0, dcos A angle)).

(** Modelled from the spec: [D2R] (degrees to radians) is declared in
    openMVG's numeric module. *)
Definition D2R (degree : double A) : double A :=
  ddiv A (dmul A degree (M_PI A)) (of_int A 180).

(** Modelled from the spec: the pinhole camera model of section 3,
    {width, height, focal length, principal point}. *)
Record Pinhole_Intrinsic : Type := {
  width : Z;
  height : Z;
  focal : double A;
  ppx : double A;
  ppy : double A
}.

(** Modelled from the spec: [spherical::FocalFromPinholeHeight] is declared
    in [cubic_image_sampler.hpp], a header outside this sample.
    Section 4.2: focal = (h / 2) / tan(fov_radians / 2). *)
Definition FocalFromPinholeHeight (h : Z) (fov_radian : double A) : double A :=
  ddiv A (ddiv A (of_int A h) (of_int A 2))
         (dtan A (ddiv A fov_radian (of_int A 2))).

(** The vector-graphics primitives [svgDrawer] collects. *)
Inductive svgPrimitive : Type :=
| Line (ax ay bx by_ : double A) (style : svgStyle)
| Circle (cx cy r : double A) (style : svgStyle).

End Geometry.

Arguments dot3 {A} r v.
Arguments mat_vec {A} m v.
Arguments RotationAroundY {A} angle.
Arguments D2R {A} degree.
Arguments FocalFromPinholeHeight {A} h fov_radian.
Arguments Line {A} ax ay bx by_ style.
Arguments Circle {A} cx cy r style.


(** ** The program's variables, its collaborators and what a run produces *)

(** The variables bound to the command-line options (lines 29-44). *)
Record Options (A : Arith) : Type := {
  s_directory_in : string;
  s_directory_out : string;
  image_resolution : Z;                     (* int *)
  nb_split : Z;                             (* int *)
  fov : double A                            (* float, widened where it is used *)
}.

(** What [cmd.process] leaves behind: whether it threw a [std::string], the
    option variables as it wrote them, and whether switch [-D] was seen. *)
Record Parsed (A : Arith) : Type := {
  threw : bool;
  vars : Options A;
  used_D : bool
}.

Section Collaborators.
Variable A : Arith.

(** What [main] calls and does not define.  Each field is a parameter of the
    run; calls that read or change the file system take its state, and those
    that change it return the new one.  [sample_pinhole] is the work
    [SphericalToPinholes] does for one camera. *)
Record World : Type := {
  Image : Type;                             (* image::Image<image::RGBColor> *)
  RGBColor : Type;
  BLACK : RGBColor;
  Image_new : Z -> Z -> RGBColor -> Image;   (* Image(width, height, value) *)
  FS : Type;                                (* state of the file system *)
  (* third_party/cmdLine *)
  cmd_process : list string -> Options A -> Parsed A;
  (* stlplus file_system *)
  is_folder : FS -> string -> bool;
  folder_create : FS -> string -> bool * FS;
  folder_wildcard : FS -> string -> string -> list string;
  create_filespec : string -> string -> string;
  basename_part : string -> string;
  (* openMVG image_io *)
  ReadImage : FS -> string -> option Image;
  WriteImage : FS -> string -> Image -> FS;
  (* openMVG cameras and spherical sampler *)
  ComputeCubicCameraIntrinsics : Z -> Pinhole_Intrinsic A;
  pinhole_bearing : Pinhole_Intrinsic A -> Vec2 A -> Vec3 A;   (* pinhole_camera(Vec2) *)
  spherical_project : Z -> Z -> Vec3 A -> Vec2 A;  (* Intrinsic_Spherical(w, h).project *)
  sample_pinhole : Image -> Pinhole_Intrinsic A -> Mat3 A -> Image -> Image;
  (* std::ofstream: what a text file holds once written and closed *)
  ofstream_write : FS -> string -> string -> FS;
  print_double : double A -> string;        (* operator<<(double) *)
  closeSvgFile : Z -> Z -> list (svgPrimitive A) -> string
}.

End Collaborators.

(** What a run prints and writes, in program order. *)
Inductive event (A : Arith) (W : World A) : Type :=
| cerr_usage (argv0 : string) (image_resolution nb_split : Z) (fov : double A)
| cerr (line : string)
| cerr_cannot_read (path : string)
| cout_cam_index (basename : string) (i_rot : Z)
| resampled (path : string)                 (* a call of SphericalToPinholes *)
| image_written (path : string) (img : Image W)
| focal_written (path : string) (focal : double A)
| svg_written (path : string) (pano_width pano_height : Z)
              (drawn : list (svgPrimitive A)).

Arguments cerr_usage {A W}.
Arguments cerr {A W}.
Arguments cerr_cannot_read {A W}.
Arguments cout_cam_index {A W}.
Arguments resampled {A W}.
Arguments image_written {A W}.
Arguments focal_written {A W}.
Arguments svg_written {A W}.

Record Outcome (A : Arith) (W : World A) : Type := {
  exit_code : Z;
  trace : list (event W);
  final_fs : FS W
}.

Definition EXIT_SUCCESS : Z := 0.
Definition EXIT_FAILURE : Z := 1.

(** ** [main] *)

Section Program.
Variable A : Arith.
Variable W : World A.

(** Lines 29-35: the initial values of the option variables. *)
Definition default_options : Options A := {|
  s_directory_in := EmptyString;
  s_directory_out := EmptyString;
  image_resolution := 1024;
  nb_split := 5;
  fov := of_int A 60
|}.

(** [for (int i = first; i < first + count; ++i) body]: the body runs [count]
    times on consecutive values of [i]. *)
Fixpoint for_int (S : Type) (count : nat) (i : Z) (body : Z -> S -> S) (s : S) : S :=
  match count with
  | O => s
  | Datatypes.S count' => for_int count' (i + 1) body (body i s)
  end.

(** [for (int i = 0; i < n; ++i) body]; no iteration when [n <= 0]. *)
Definition for_upto (S : Type) (n : Z) (body : Z -> S -> S) (s : S) : S :=
  for_int (Z.to_nat n) 0 body s.

(** Lines 116-121: the ring of camera rotations. *)
Definition alpha (nb_split : Z) : double A :=
  ddiv A (dmul A (M_PI A) (of_int A 2)) (of_int A nb_split).

Definition camera_angle (nb_split i : Z) : double A :=
  dmul A (alpha nb_split) (of_int A i).

Definition camera_rotations (nb_split : Z) : list (Mat3 A) :=
  for_upto nb_split
    (fun i rotations => rotations ++ [RotationAroundY (camera_angle nb_split i)])
    [].

(** *** Demo mode (lines 123-167) *)

Definition step : Z := 10.

Definition drawCircle (sphere_proj : Vec2 A) (col : string) : svgPrimitive A :=
  Circle (fst sphere_proj) (snd sphere_proj) (of_int A 4) (svgStyle_fill col).

Definition project_border (pano_width pano_height : Z)
    (pinhole_camera : Pinhole_Intrinsic A) (cam_rotation : Mat3 A)
    (x : Vec2 A) : Vec2 A :=
  spherical_project W pano_width pano_height
    (mat_vec cam_rotation (pinhole_bearing W pinhole_camera x)).

(** Body of the loop of lines 143-151, at sample [j]. *)
Definition vertical_border (pano_width pano_height r : Z)
    (pinhole_camera : Pinhole_Intrinsic A) (cam_rotation : Mat3 A)
    (j : double A) : list (svgPrimitive A) :=
  [ drawCircle (project_border pano_width pano_height pinhole_camera
                  cam_rotation (of_int A 0, j)) "green";
    drawCircle (project_border pano_width pano_height pinhole_camera
                  cam_rotation (of_int A r, j)) "green" ].

(** Body of the loop of lines 153-160, at sample [j]. *)
Definition horizontal_border (pano_width pano_height r : Z)
    (pinhole_camera : Pinhole_Intrinsic A) (cam_rotation : Mat3 A)
    (j : double A) : list (svgPrimitive A) :=
  [ drawCircle (project_border pano_width pano_height pinhole_camera
                  cam_rotation (j, of_int A 0)) "yellow";
    drawCircle (project_border pano_width pano_height pinhole_camera
                  cam_rotation (j, of_int A r)) "yellow" ].

(** [for (double j = 0; j <= image_resolution; j += image_resolution/(double)step)]
    started at [j], appending to the drawing.  The loop counter is a [double]:
    the loop runs as long as the comparison holds, and [None] is the run that
    has not left the loop after [fuel] iterations. *)
Fixpoint border_loop (fuel : nat) (r : Z)
    (body : double A -> list (svgPrimitive A)) (j : double A)
    (svgStream : list (svgPrimitive A)) : option (list (svgPrimitive A)) :=
  match fuel with
  | O => None
  | Datatypes.S fuel' =>
      if dleb A j (of_int A r)
      then border_loop fuel' r body
             (dadd A j (ddiv A (of_int A r) (of_int A step)))
             (svgStream ++ body j)
      else Some svgStream
  end.

(** Lines 135-161: for each camera, the two border loops. *)
Fixpoint draw_frustums (fuel : nat) (pano_width pano_height r : Z)
    (pinhole_camera : Pinhole_Intrinsic A) (rotations : list (Mat3 A))
    (svgStream : list (svgPrimitive A)) : option (list (svgPrimitive A)) :=
  match rotations with
  | [] => Some svgStream
  | cam_rotation :: rest =>
      match border_loop fuel r
              (vertical_border pano_width pano_height r pinhole_camera cam_rotation)
              (of_int A 0) svgStream with
      | None => None
      | Some s1 =>
          match border_loop fuel r
                  (horizontal_border pano_width pano_height r pinhole_camera cam_rotation)
                  (of_int A 0) s1 with
          | None => None
          | Some s2 =>
              draw_frustums fuel pano_width pano_height r pinhole_camera rest s2
          end
      end
  end.

Definition demo_mode (fuel : nat) (o : Options A)
    (pinhole_camera : Pinhole_Intrinsic A) (rotations : list (Mat3 A))
    (fs : FS W) (t : list (event W)) : option (Outcome W) :=
  let pano_width := 4096 in
  let pano_height := pano_width / 2 in
  let svgStream :=
    [ Line (of_int A 0) (of_int A 0) (of_int A pano_width) (of_int A pano_height)
        svgStyle_default;
      Line (of_int A pano_width) (of_int A 0) (of_int A 0) (of_int A pano_height)
        svgStyle_default ] in
  match draw_frustums fuel pano_width pano_height (image_resolution o)
          pinhole_camera rotations svgStream with
  | None => None
  | Some drawn =>
      let path := create_filespec W (s_directory_out o) "test.svg" in
      Some {| exit_code := EXIT_SUCCESS;
              trace := t ++ [svg_written path pano_width pano_height drawn];
              final_fs := ofstream_write W fs path
                            (closeSvgFile W pano_width pano_height drawn) |}
  end.

(** *** Conversion mode (lines 169-209) *)

(** Modelled from the spec: [spherical::SphericalToPinholes] is declared in
    [cubic_image_sampler.hpp], outside this sample.  Section 4.4: it produces
    one output image per rotation, each filled from the panorama through the
    pinhole camera and that rotation ([sample_pinhole], the per-pixel loop with
    the linear sampler), the images being independent of each other. *)
Fixpoint SphericalToPinholes (spherical_image : Image W)
    (pinhole_camera : Pinhole_Intrinsic A) (pinhole_images : list (Image W))
    (rotations : list (Mat3 A)) : list (Image W) :=
  match pinhole_images, rotations with
  | img :: imgs, rot :: rots =>
      sample_pinhole W spherical_image pinhole_camera rot img
        :: SphericalToPinholes spherical_image pinhole_camera imgs rots
  | _, _ => pinhole_images
  end.

(** [os << i_rot] *)
Definition print_int (i : Z) : string := NilZero.string_of_int (Z.to_int i).

(** Line 200: [os << s_directory_out << "/" << basename << "_" << i_rot << ".jpg"] *)
Definition jpg_name (s_directory_out basename : string) (i_rot : Z) : string :=
  (s_directory_out ++ "/" ++ basename ++ "_" ++ print_int i_rot ++ ".jpg")%string.

(** [sampled_images[i_rot]]; the index is below the size of the vector at
    every use (lemma [sampled_images_in_range]), so the default is never
    returned. *)
Definition image_at (sampled_images : list (Image W)) (i_rot : Z) : Image W :=
  nth (Z.to_nat i_rot) sampled_images (Image_new W 0 0 (BLACK W)).

(** Lines 192-202: save the images of one panorama. *)
Definition save_images (o : Options A) (filename_it : string)
    (rotations : list (Mat3 A)) (sampled_images : list (Image W))
    (st : FS W * list (event W)) : FS W * list (event W) :=
  for_upto (Z.of_nat (List.length rotations))
    (fun i_rot st =>
       let basename := basename_part W filename_it in
       let name := jpg_name (s_directory_out o) basename i_rot in
       let img := image_at sampled_images i_rot in
       (WriteImage W (fst st) name img,
        snd st ++ [cout_cam_index basename i_rot; image_written name img]))
    st.

(** Lines 170-203: for each input image extract the pinhole images. *)
Fixpoint convert_images (o : Options A) (pinhole_camera : Pinhole_Intrinsic A)
    (rotations : list (Mat3 A)) (vec_filenames : list string)
    (st : FS W * list (event W)) : FS W * list (event W) :=
  match vec_filenames with
  | [] => st
  | filename_it :: rest =>
      let path := create_filespec W (s_directory_in o) filename_it in
      match ReadImage W (fst st) path with
      | None =>
          convert_images o pinhole_camera rotations rest
            (fst st, snd st ++ [cerr_cannot_read path])
      | Some spherical_image =>
          let sampled_images :=
            repeat (Image_new W (image_resolution o) (image_resolution o) (BLACK W))
                   (List.length rotations) in
          let sampled_images :=
            SphericalToPinholes spherical_image pinhole_camera sampled_images
              rotations in
          convert_images o pinhole_camera rotations rest
            (save_images o filename_it rotations sampled_images
               (fst st, snd st ++ [resampled path]))
      end
  end.

Definition conversion_mode (o : Options A) (focal : double A)
    (pinhole_camera : Pinhole_Intrinsic A) (rotations : list (Mat3 A))
    (vec_filenames : list string) (fs : FS W) (t : list (event W)) : Outcome W :=
  let st := convert_images o pinhole_camera rotations vec_filenames (fs, t) in
  let path := create_filespec W (s_directory_out o) "focal.txt" in
  {| exit_code := EXIT_SUCCESS;
     trace := snd st ++ [focal_written path focal];
     final_fs := ofstream_write W (fst st) path (print_double W focal) |}.

(** *** Start-up (lines 47-98) *)

(** Lines 47-61: [cmd.process] is not reached when [argc == 1]; the usage text
    is printed when a [std::string] was thrown, and the run goes on. *)
Definition parse_command_line (argv : list string) : Parsed A :=
  let argc := Z.of_nat (List.length argv) in
  if argc =? 1
  then {| threw := true; vars := default_options; used_D := false |}
  else cmd_process W argv default_options.

Definition usage (argv : list string) (p : Parsed A) : list (event W) :=
  if threw p
  then [cerr_usage (hd EmptyString argv) (image_resolution (vars p))
          (nb_split (vars p)) (fov (vars p))]
  else [].

Definition failure (t : list (event W)) (line : string) (fs : FS W) : Outcome W :=
  {| exit_code := EXIT_FAILURE; trace := t ++ [cerr line]; final_fs := fs |}.

Definition is_empty (s : string) : bool :=
  match s with EmptyString => true | String _ _ => false end.

(** Lines 81-88: the output folder exists or is created. *)
Definition ensure_output_dir (fs : FS W) (s_directory_out : string) : bool * FS W :=
  if is_folder W fs s_directory_out then (true, fs)
  else folder_create W fs s_directory_out.

(** Lines 112-114: the focal length computed from the field of view, and the
    pinhole camera handed to both modes. *)
Definition main_focal (o : Options A) : double A :=
  let pinhole_height := image_resolution o in
  FocalFromPinholeHeight pinhole_height (D2R (fov o)).

Definition main_pinhole_camera (o : Options A) : Pinhole_Intrinsic A :=
  ComputeCubicCameraIntrinsics W (image_resolution o).

(** Lines 63-209: the run once the command line has been read. *)
Definition run (fuel : nat) (argv : list string) (p : Parsed A) (fs : FS W)
    : option (Outcome W) :=
  let o := vars p in
  let t := usage argv p in
  if image_resolution o <? 0
  then Some (failure t "image_resolution must be larger than 0" fs)
  else if nb_split o <? 0
  then Some (failure t "nb_split must be larger than 0" fs)
  else if is_empty (s_directory_in o) || is_empty (s_directory_out o)
  then Some (failure t "input_dir and output_dir option must not be empty" fs)
  else
    let (created, fs) := ensure_output_dir fs (s_directory_out o) in
    if negb created
    then Some (failure t "Cannot create the output_dir directory" fs)
    else
      let vec_filenames := folder_wildcard W fs (s_directory_in o) "*.jpg" in
      match vec_filenames with
      | [] => Some (failure t "Did not find any jpg image in the provided input_dir" fs)
      | _ :: _ =>
          let focal := main_focal o in
          let pinhole_camera := main_pinhole_camera o in
          let rotations := camera_rotations (nb_split o) in
          if used_D p
          then demo_mode fuel o pinhole_camera rotations fs t
          else Some (conversion_mode o focal pinhole_camera rotations
                       vec_filenames fs t)
      end.

Definition main (fuel : nat) (argv : list string) (fs : FS W) : option (Outcome W) :=
  run fuel argv (parse_command_line argv) fs.

(** The start-up checks of lines 65-98 all pass: the run reaches line 100 with
    file-system state [fs1] and the non-empty list [files] of panoramas. *)
Record started (argv : list string) (fs fs1 : FS W) (files : list string) : Prop := {
  resolution_accepted : 0 <= image_resolution (vars (parse_command_line argv));
  split_accepted : 0 <= nb_split (vars (parse_command_line argv));
  input_dir_given : is_empty (s_directory_in (vars (parse_command_line argv))) = false;
  output_dir_given : is_empty (s_directory_out (vars (parse_command_line argv))) = false;
  output_dir_ready :
    ensure_output_dir fs (s_directory_out (vars (parse_command_line argv))) = (true, fs1);
  images_listed :
    folder_wildcard W fs1 (s_directory_in (vars (parse_command_line argv))) "*.jpg" = files;
  images_found : files <> []
}.

End Program.

(** ** Observations on a run *)

(** The consecutive [int] values [first], [first + 1], ... ([count] of them). *)
Fixpoint zrange (first : Z) (count : nat) : list Z :=
  match count with
  | O => []
  | S count' => first :: zrange (first + 1) count'
  end.

(** The camera indices [0 .. n-1]. *)
Definition indices (n : Z) : list Z := zrange 0 (Z.to_nat n).

Definition with_fov (A : Arith) (o : Options A) (f : double A) : Options A := {|
  s_directory_in := s_directory_in o;
  s_directory_out := s_directory_out o;
  image_resolution := image_resolution o;
  nb_split := nb_split o;
  fov := f
|}.

(** The same command line read with another value of [fov]. *)
Definition with_fov_read (A : Arith) (p : Parsed A) (f : double A) : Parsed A := {|
  threw := threw p;
  vars := with_fov (vars p) f;
  used_D := used_D p
|}.

Section Observations.
Variable A : Arith.
Variable W : World A.

(** The image files a run wrote, in order. *)
Fixpoint written_images (t : list (event W)) : list (string * Image W) :=
  match t with
  | [] => []
  | image_written path img :: t' => (path, img) :: written_images t'
  | _ :: t' => written_images t'
  end.

Definition written_paths (t : list (event W)) : list string :=
  map fst (written_images t).

(** The focal-length files a run wrote, with the value each records. *)
Fixpoint focal_files (t : list (event W)) : list (string * double A) :=
  match t with
  | [] => []
  | focal_written path focal :: t' => (path, focal) :: focal_files t'
  | _ :: t' => focal_files t'
  end.

(** What conversion mode leaves behind: a resampling, a pinhole image, the
    focal-length file. *)
Definition is_conversion_artifact (e : event W) : bool :=
  match e with
  | resampled _ | image_written _ _ | focal_written _ _ => true
  | _ => false
  end.

Definition is_svg_written (e : event W) : bool :=
  match e with
  | svg_written _ _ _ _ => true
  | _ => false
  end.

(** A line of the error stream that reports a fatal configuration or
    discovery error. *)
Definition is_fatal_report (e : event W) : bool :=
  match e with
  | cerr _ => true
  | _ => false
  end.

(** The event with the value derived from [fov] blanked out. *)
Definition without_fov (e : event W) : event W :=
  match e with
  | cerr_usage argv0 r n _ => cerr_usage argv0 r n (of_int A 0)
  | focal_written path _ => focal_written path (of_int A 0)
  | e => e
  end.

Definition is_circle (col : string) (p : svgPrimitive A) : bool :=
  match p with
  | Circle _ _ _ (svgStyle_fill c) => String.eqb c col
  | _ => false
  end.

Definition is_any_circle (p : svgPrimitive A) : bool :=
  match p with
  | Circle _ _ _ _ => true
  | Line _ _ _ _ _ => false
  end.

Definition is_line (p : svgPrimitive A) : bool :=
  match p with
  | Line _ _ _ _ _ => true
  | Circle _ _ _ _ => false
  end.

Definition count (f : svgPrimitive A -> bool) (drawn : list (svgPrimitive A)) : nat :=
  List.length (filter f drawn).

(** The values the counter [j] of a border loop takes while the loop runs. *)
Fixpoint border_samples (fuel : nat) (r : Z) (j : double A) : option (list (double A)) :=
  match fuel with
  | O => None
  | S fuel' =>
      if dleb A j (of_int A r)
      then option_map (cons j)
             (border_samples fuel' r (dadd A j (ddiv A (of_int A r) (of_int A step))))
      else Some []
  end.

(** The exit code and the trace with the values derived from [fov] blanked. *)
Definition seen (out : Outcome W) : Z * list (event W) :=
  (exit_code out, map without_fov (trace out)).

(** The two diagonals drawn first (lines 130-131). *)
Definition reference_lines : list (svgPrimitive A) :=
  [ Line (of_int A 0) (of_int A 0) (of_int A 4096) (of_int A 2048) svgStyle_default;
    Line (of_int A 4096) (of_int A 0) (of_int A 0) (of_int A 2048) svgStyle_default ].

(** The markers of one camera when the border loops visit the samples [js]:
    left and right border first, then top and bottom border. *)
Definition frustum_markers (pano_width pano_height r : Z)
    (cam : Pinhole_Intrinsic A) (js : list (double A)) (rot : Mat3 A)
    : list (svgPrimitive A) :=
  flat_map (vertical_border W pano_width pano_height r cam rot) js
  ++ flat_map (horizontal_border W pano_width pano_height r cam rot) js.

(** Every resolution [first], [first + 1], ... ([count] of them) lets the
    border loop end within [fuel] iterations. *)
Fixpoint border_loop_ends (fuel : nat) (first : Z) (count : nat) : bool :=
  match count with
  | O => true
  | S count' =>
      match border_samples fuel first (of_int A 0) with
      | Some _ => border_loop_ends fuel (first + 1) count'
      | None => false
      end
  end.

(** *** The conversion loop as section 6 words it

    For each panorama that decodes: one image per camera index, named
    [{basename}_{index}.jpg] in the output directory, obtained by resampling
    into a fresh [image_resolution] x [image_resolution] image filled with the
    background colour.  A panorama that does not decode is reported and
    skipped. *)
Section Conversion_spec.
Variable o : Options A.
Variable pinhole_camera : Pinhole_Intrinsic A.
Variable rotations : list (Mat3 A).

Definition fresh_image : Image W :=
  Image_new W (image_resolution o) (image_resolution o) (BLACK W).

Definition expected_pinholes (spherical_image : Image W) : list (Z * Image W) :=
  map (fun ir => (fst ir, sample_pinhole W spherical_image pinhole_camera (snd ir) fresh_image))
      (combine (indices (Z.of_nat (List.length rotations))) rotations).

Definition output_name (filename : string) (i : Z) : string :=
  jpg_name (s_directory_out o) (basename_part W filename) i.

Definition save_events (filename : string) (outs : list (Z * Image W)) : list (event W) :=
  flat_map (fun ii => [cout_cam_index (basename_part W filename) (fst ii);
                       image_written (output_name filename (fst ii)) (snd ii)])
           outs.

Definition save_fs (filename : string) (outs : list (Z * Image W)) (fs : FS W) : FS W :=
  fold_left (fun fs ii => WriteImage W fs (output_name filename (fst ii)) (snd ii))
            outs fs.

Fixpoint conversion_spec (files : list string) (fs : FS W) : list (event W) * FS W :=
  match files with
  | [] => ([], fs)
  | filename :: rest =>
      let path := create_filespec W (s_directory_in o) filename in
      match ReadImage W fs path with
      | None =>
          let (t, fs') := conversion_spec rest fs in
          (cerr_cannot_read path :: t, fs')
      | Some spherical_image =>
          let outs := expected_pinholes spherical_image in
          let (t, fs') := conversion_spec rest (save_fs filename outs fs) in
          (resampled path :: save_events filename outs ++ t, fs')
      end
  end.

End Conversion_spec.
End Observations.

Arguments border_samples A fuel r j : clear implicits.
Arguments border_loop_ends A fuel first count : clear implicits.

(** ** Further observations *)

Section Reading_and_drawing.
Variable A : Arith.
Variable W : World A.



(** The event with the value of the focal-length file blanked out. *)
Definition without_focal (e : event W) : event W :=
  match e with
  | focal_written path _ => focal_written path (of_int A 0)
  | e => e
  end.

Definition is_usage (e : event W) : bool :=
  match e with
  | cerr_usage _ _ _ _ => true
  | _ => false
  end.

(** The names of the image files one readable panorama gives. *)
Definition names_of (o : Options A) (filename : string) : list string :=
  map (jpg_name (s_directory_out o) (basename_part W filename))
      (indices (nb_split o)).

(** The names of the image files of a list of panoramas, when decoding a
    panorama does not depend on what was written before. *)
Definition names_from (o : Options A) (fs : FS W) (files : list string) : list string :=
  flat_map
    (fun filename =>
       match ReadImage W fs (create_filespec W (s_directory_in o) filename) with
       | Some _ => names_of o filename
       | None => []
       end)
    files.

(** Every resolution [first], [first + 1], ... ([count] of them) makes the
    border loop take between [lo] and [hi] samples and end within [fuel]
    iterations. *)
Fixpoint border_loop_takes (fuel lo hi : nat) (first : Z) (count : nat) : bool :=
  match count with
  | O => true
  | S count' =>
      match border_samples A fuel first (of_int A 0) with
      | Some js =>
          Nat.leb lo (List.length js) && Nat.leb (List.length js) hi
          && border_loop_takes fuel lo hi (first + 1) count'
      | None => false
      end
  end.

End Reading_and_drawing.

Arguments border_loop_takes A fuel lo hi first count : clear implicits.

(** ** A concrete world, for closed runs

    Short series stand in for libm, the file system is the list of the paths
    created so far, folder [in] holds one panorama that decodes and one file
    that does not, folder [bad] only the latter, and the command-line reader
    understands the options of the sample. *)
Module Sample.

Definition series_sin (x : float) : float := (x - x * x * x / 6)%float.
Definition series_cos (x : float) : float := (1 - x * x / 2)%float.
Definition series_tan (x : float) : float := (x + x * x * x / 3)%float.

Definition arith : Arith := binary64 series_tan series_cos series_sin.

(** A picture: width, height and the name of what it shows. *)
Definition picture : Type := (Z * Z * string)%type.

Definition thrown (p : Parsed arith) : Parsed arith :=
  {| threw := true; vars := vars p; used_D := used_D p |}.

Definition int_option (v : string) (p : Parsed arith)
    (set : Z -> Options arith) : Parsed arith :=
  match NilZero.int_of_string v with
  | Some n => {| threw := threw p; vars := set (Z.of_int n); used_D := used_D p |}
  | None => thrown p
  end.

Fixpoint read_options (args : list string) (p : Parsed arith) : Parsed arith :=
  match args with
  | [] => p
  | a :: rest =>
      if String.eqb a "-D"
      then read_options rest {| threw := threw p; vars := vars p; used_D := true |}
      else
        match rest with
        | [] => thrown p
        | v :: rest' =>
            let o := vars p in
            if String.eqb a "-i" then
              read_options rest'
                {| threw := threw p; used_D := used_D p;
                   vars := {| s_directory_in := v; s_directory_out := s_directory_out o;
                              image_resolution := image_resolution o;
                              nb_split := nb_split o; fov := fov o |} |}
            else if String.eqb a "-o" then
              read_options rest'
                {| threw := threw p; used_D := used_D p;
                   vars := {| s_directory_in := s_directory_in o; s_directory_out := v;
                              image_resolution := image_resolution o;
                              nb_split := nb_split o; fov := fov o |} |}
            else if String.eqb a "-r" then
              read_options rest'
                (int_option v p (fun n =>
                   {| s_directory_in := s_directory_in o;
                      s_directory_out := s_directory_out o;
                      image_resolution := n; nb_split := nb_split o; fov := fov o |}))
            else if String.eqb a "-n" then
              read_options rest'
                (int_option v p (fun n =>
                   {| s_directory_in := s_directory_in o;
                      s_directory_out := s_directory_out o;
                      image_resolution := image_resolution o; nb_split := n;
                      fov := fov o |}))
            else if String.eqb a "-f" then
              read_options rest'
                (int_option v p (fun n => with_fov o (float_of_Z n)))
            else thrown p
        end
  end.

Fixpoint before_dot (s : string) : string :=
  match s with
  | EmptyString => EmptyString
  | String c s' => if Ascii.eqb c "."%char then EmptyString else String c (before_dot s')
  end.

Definition half (size : Z) : double arith := (float_of_Z size / 2)%float.

Definition cubic (size : Z) : Pinhole_Intrinsic arith :=
  {| width := size; height := size; focal := half size;
     ppx := half size; ppy := half size |}.

Definition bearing (cam : Pinhole_Intrinsic arith) (x : Vec2 arith) : Vec3 arith :=
  (((fst x - ppx cam) / focal cam)%float, ((snd x - ppy cam) / focal cam)%float, 1%float).

Definition flat_project (w h : Z) (v : Vec3 arith) : Vec2 arith :=
  ((fst (fst v) * float_of_Z w)%float, (snd (fst v) * float_of_Z h)%float).

Definition world : World arith := {|
  Image := picture;
  RGBColor := Z;
  BLACK := 0;
  Image_new := fun w h _ => (w, h, "blank"%string);
  FS := list string;
  cmd_process := fun argv defaults =>
    read_options (tl argv) {| threw := false; vars := defaults; used_D := false |};
  is_folder := fun fs d => String.eqb d "in" || String.eqb d "bad" || existsb (String.eqb d) fs;
  folder_create := fun fs d => (true, d :: fs);
  folder_wildcard := fun _ d _ =>
    if String.eqb d "in" then ["pano.jpg"; "broken.jpg"]%string
    else if String.eqb d "bad" then ["broken.jpg"]%string
    else [];
  create_filespec := fun d f => (d ++ "/" ++ f)%string;
  basename_part := before_dot;
  ReadImage := fun _ path =>
    if String.eqb path "in/pano.jpg" then Some (4096, 2048, "pano"%string) else None;
  WriteImage := fun fs path _ => path :: fs;
  ComputeCubicCameraIntrinsics := cubic;
  pinhole_bearing := bearing;
  spherical_project := flat_project;
  sample_pinhole := fun src _ _ dst => (fst (fst dst), snd (fst dst), snd src);
  ofstream_write := fun fs path _ => path :: fs;
  print_double := fun _ => "<double>"%string;
  closeSvgFile := fun _ _ _ => "<svg>"%string
|}.

End Sample.

(** * Properties *)

Unset Implicit Arguments.

(** ** Counted loops *)

Lemma for_int_fold (S : Type) (body : Z -> S -> S) (count : nat) :
  forall (i : Z) (s : S),
    for_int count i body s = fold_left (fun s k => body k s) (zrange i count) s.
Proof.
  induction count as [|count IH]; intros i s; simpl.
  - reflexivity.
  - apply IH.
Qed.

Lemma zrange_length (count : nat) : forall first, List.length (zrange first count) = count.
Proof.
  induction count as [|count IH]; intros first; simpl; [reflexivity|].
  now rewrite IH.
Qed.

Lemma zrange_nth_error (count : nat) :
  forall first k, (k < count)%nat ->
    nth_error (zrange first count) k = Some (first + Z.of_nat k).
Proof.
  induction count as [|count IH]; intros first k Hk; [lia|].
  destruct k as [|k]; simpl.
  - f_equal; lia.
  - rewrite IH by lia. f_equal; lia.
Qed.

Lemma fold_left_snoc (X Y : Type) (f : X -> Y) (l : list X) :
  forall acc : list Y,
    fold_left (fun acc k => acc ++ [f k]) l acc = acc ++ map f l.
Proof.
  induction l as [|x l IH]; intros acc; simpl.
  - now rewrite app_nil_r.
  - rewrite IH, <- app_assoc. reflexivity.
Qed.

(** ** The rig generator, for any arithmetic *)

Lemma camera_rotations_map (A : Arith) (nb_split : Z) :
  camera_rotations A nb_split
  = map (fun i => RotationAroundY (camera_angle A nb_split i)) (indices nb_split).
Proof.
  unfold camera_rotations, for_upto, indices.
  rewrite for_int_fold.
  apply fold_left_snoc.
Qed.

Lemma camera_rotations_length (A : Arith) (nb_split : Z) :
  List.length (camera_rotations A nb_split) = Z.to_nat nb_split.
Proof.
  rewrite camera_rotations_map, length_map. apply zrange_length.
Qed.

Lemma camera_rotations_nth (A : Arith) (nb_split i : Z) :
  0 <= i < nb_split ->
  nth_error (camera_rotations A nb_split) (Z.to_nat i)
  = Some (RotationAroundY (camera_angle A nb_split i)).
Proof.
  intros Hi.
  rewrite camera_rotations_map, nth_error_map.
  unfold indices. rewrite zrange_nth_error by lia.
  simpl. rewrite Z2Nat.id by lia. reflexivity.
Qed.

(** ** The formulas, read in the real numbers *)

Lemma half_angle_90 : ((90 * PI / 180) / 2 = PI / 4)%R.
Proof. field. Qed.

Lemma half_angle_60 : ((60 * PI / 180) / 2 = PI / 6)%R.
Proof. field. Qed.

(** fov = 90 degrees and h = 1024 give the focal length 512. *)
Lemma focal_at_90_degrees :
  FocalFromPinholeHeight (A := exact) 1024 (D2R (A := exact) 90%R) = 512%R.
Proof.
  unfold FocalFromPinholeHeight, D2R; simpl.
  rewrite half_angle_90, tan_PI4. lra.
Qed.

(** The focal length is positive for every h > 0 and fov in (0, 180). *)
Lemma focal_positive (h : Z) (fov_deg : R) :
  0 < h -> (0 < fov_deg < 180)%R ->
  (0 < FocalFromPinholeHeight (A := exact) h (D2R (A := exact) fov_deg))%R.
Proof.
  intros Hh [Hlo Hhi].
  unfold FocalFromPinholeHeight, D2R; simpl.
  assert (HPI := PI_RGT_0).
  apply Rdiv_lt_0_compat.
  - apply Rdiv_lt_0_compat; [apply IZR_lt; lia | lra].
  - apply tan_gt_0.
    + apply Rdiv_lt_0_compat; [|lra].
      apply Rdiv_lt_0_compat; [|lra].
      apply Rmult_lt_0_compat; lra.
    + apply Rmult_lt_reg_r with (r := (360 / PI)%R).
      * apply Rdiv_lt_0_compat; lra.
      * replace (fov_deg * PI / 180 / 2 * (360 / PI))%R with fov_deg by (field; lra).
        replace (PI / 2 * (360 / PI))%R with 180%R by (field; lra).
        exact Hhi.
Qed.

Lemma focal_at_60_degrees :
  FocalFromPinholeHeight (A := exact) 1024 (D2R (A := exact) 60%R)
  = (512 * R_sqrt.sqrt 3)%R.
Proof.
  unfold FocalFromPinholeHeight, D2R; simpl.
  rewrite half_angle_60, tan_PI6.
  assert (H3 : (0 < R_sqrt.sqrt 3)%R) by (apply sqrt_lt_R0; lra).
  field. lra.
Qed.

Lemma sqrt_3_not_1 : R_sqrt.sqrt 3 <> 1%R.
Proof.
  intros H. assert (H3 : (R_sqrt.sqrt 3 * R_sqrt.sqrt 3 = 3)%R) by (apply sqrt_def; lra).
  rewrite H in H3. lra.
Qed.

(** C1.  The pinhole camera that both modes receive is built from
    [image_resolution] alone (line 114), so its focal length cannot be
    (h/2)/tan(fov/2) for every field of view: at h = 1024 that formula takes
    different values at 60 and at 90 degrees, and the camera is the same. *)
Theorem pinhole_camera_focal_ignores_fov
    (W : World exact) (dir_in dir_out : string) (n : Z) :
  ~ (forall fov_deg : R,
       (0 < fov_deg < 180)%R ->
       focal (main_pinhole_camera W
                (@Build_Options exact dir_in dir_out 1024 n fov_deg))
       = ((1024 / 2) / tan ((fov_deg * PI / 180) / 2))%R).
Proof.
  intros H.
  assert (H60 := H 60%R ltac:(lra)).
  assert (H90 := H 90%R ltac:(lra)).
  unfold main_pinhole_camera in H60, H90; simpl in H60, H90.
  rewrite H60 in H90.
  rewrite half_angle_60, half_angle_90, tan_PI6, tan_PI4 in H90.
  assert (H3 : (0 < R_sqrt.sqrt 3)%R) by (apply sqrt_lt_R0; lra).
  apply sqrt_3_not_1.
  assert (E : (1024 / 2 / (1 / R_sqrt.sqrt 3) = 512 * R_sqrt.sqrt 3)%R) by (field; lra).
  rewrite E in H90. lra.
Qed.

(** C2.  For nb_split >= 1 the rig holds exactly nb_split rotations, the i-th
    being the rotation of angle 2.pi.i/nb_split about the Y axis; the angles
    increase strictly with i, and rotation 0 is the identity. *)
Theorem rig_generator_rotations (nb_split : Z) :
  1 <= nb_split ->
  List.length (camera_rotations exact nb_split) = Z.to_nat nb_split
  /\ (forall i, 0 <= i < nb_split ->
        nth_error (camera_rotations exact nb_split) (Z.to_nat i)
        = Some (RotationAroundY (A := exact) (2 * PI * IZR i / IZR nb_split)%R))
  /\ (forall i j, 0 <= i -> i < j -> j < nb_split ->
        (2 * PI * IZR i / IZR nb_split < 2 * PI * IZR j / IZR nb_split)%R)
  /\ nth_error (camera_rotations exact nb_split) 0 = Some (Identity3 exact).
Proof.
  intros Hn.
  assert (Hn0 : (0 < IZR nb_split)%R) by (apply IZR_lt; lia).
  assert (HPI := PI_RGT_0).
  split; [apply camera_rotations_length|].
  split; [|split].
  - intros i Hi. rewrite camera_rotations_nth by exact Hi.
    do 2 f_equal. unfold camera_angle, alpha; simpl. field. lra.
  - intros i j Hi Hij Hj.
    apply Rmult_lt_compat_r; [apply Rinv_0_lt_compat; exact Hn0|].
    apply Rmult_lt_compat_l; [lra|]. apply IZR_lt; exact Hij.
  - change 0%nat with (Z.to_nat 0).
    rewrite camera_rotations_nth by lia.
    f_equal. unfold camera_angle, RotationAroundY, Identity3; simpl.
    rewrite Rmult_0_r, cos_0, sin_0, Ropp_0. reflexivity.
Qed.

Lemma rig_generator_rotations_witness :
  1 <= 4
  /\ List.length (camera_rotations exact 4) = Z.to_nat 4
  /\ nth_error (camera_rotations exact 4) 0 = Some (Identity3 exact).
Proof.
  split; [lia|].
  destruct (rig_generator_rotations 4 ltac:(lia)) as (Hlen & _ & _ & Hid).
  split; [exact Hlen | exact Hid].
Defined.

(** ** Start-up *)

Section Startup.
Variable A : Arith.
Variable W : World A.

Lemma main_started (fuel : nat) (argv : list string) (fs fs1 : FS W)
    (files : list string) :
  started W argv fs fs1 files ->
  main W fuel argv fs
  = let p := parse_command_line W argv in
    let o := vars p in
    if used_D p
    then demo_mode fuel o (main_pinhole_camera W o)
           (camera_rotations A (nb_split o)) fs1 (usage W argv p)
    else Some (conversion_mode o (main_focal o) (main_pinhole_camera W o)
                 (camera_rotations A (nb_split o)) files fs1 (usage W argv p)).
Proof.
  intros [Hr Hn Hin Hout Hdir Hlist Hfound].
  unfold main, run.
  destruct (Z.ltb_spec (image_resolution (vars (parse_command_line W argv))) 0);
    [lia|].
  destruct (Z.ltb_spec (nb_split (vars (parse_command_line W argv))) 0); [lia|].
  rewrite Hin, Hout, Hdir. simpl. rewrite Hlist.
  destruct files as [|f files]; [congruence|]. reflexivity.
Qed.

(** Negative values of the two integer options are rejected at lines 65-74,
    before anything is read or written. *)
Lemma negative_values_are_rejected (fuel : nat) (argv : list string) (fs : FS W) :
  image_resolution (vars (parse_command_line W argv)) < 0
  \/ nb_split (vars (parse_command_line W argv)) < 0 ->
  exists line,
    main W fuel argv fs
    = Some (failure (usage W argv (parse_command_line W argv)) line fs).
Proof.
  intros Hneg. unfold main, run.
  destruct (Z.ltb_spec (image_resolution (vars (parse_command_line W argv))) 0).
  - eexists. reflexivity.
  - destruct (Z.ltb_spec (nb_split (vars (parse_command_line W argv))) 0).
    + eexists. reflexivity.
    + lia.
Qed.

(** C10.  Without arguments the usage text goes to the error stream, the run
    goes on with the default values, and it ends with a failure at the check
    of the two directory options, which are empty. *)
Theorem no_arguments_usage_then_failure (fuel : nat) (prog : string) (fs : FS W) :
  main W fuel [prog] fs
  = Some {| exit_code := EXIT_FAILURE;
            trace := [cerr_usage prog 1024 5 (of_int A 60);
                      cerr "input_dir and output_dir option must not be empty"];
            final_fs := fs |}.
Proof. reflexivity. Qed.

End Startup.

(** ** The conversion loop *)

Section Conversion.
Variable A : Arith.
Variable W : World A.
Variable o : Options A.
Variable pinhole_camera : Pinhole_Intrinsic A.
Variable rotations : list (Mat3 A).

Lemma SphericalToPinholes_fresh (spherical_image : Image W) (blank : Image W) :
  forall rots : list (Mat3 A),
    SphericalToPinholes W spherical_image pinhole_camera
      (repeat blank (List.length rots)) rots
    = map (fun rot => sample_pinhole W spherical_image pinhole_camera rot blank) rots.
Proof.
  induction rots as [|rot rots IH]; simpl; [reflexivity|].
  now rewrite IH.
Qed.

(** [SphericalToPinholes] leaves the size of the vector unchanged, so every
    [sampled_images[i_rot]] of the saving loop is in range. *)
Lemma sampled_images_in_range (spherical_image : Image W) (i_rot : Z) :
  0 <= i_rot < Z.of_nat (List.length rotations) ->
  (Z.to_nat i_rot
   < List.length (SphericalToPinholes W spherical_image pinhole_camera
                    (repeat (fresh_image W o) (List.length rotations)) rotations))%nat.
Proof.
  intros Hi. rewrite SphericalToPinholes_fresh, length_map. lia.
Qed.

Lemma save_loop_spec (filename : string) (g : Mat3 A -> Image W) :
  forall (l : list (Mat3 A)) (pre : list (Image W)) (i : Z) (st : FS W * list (event W)),
    i = Z.of_nat (List.length pre) ->
    fold_left
      (fun st i_rot =>
         let basename := basename_part W filename in
         let name := jpg_name (s_directory_out o) basename i_rot in
         let img := image_at W (pre ++ map g l) i_rot in
         (WriteImage W (fst st) name img,
          snd st ++ [cout_cam_index basename i_rot; image_written name img]))
      (zrange i (List.length l)) st
    = (save_fs W o filename
         (map (fun ir => (fst ir, g (snd ir))) (combine (zrange i (List.length l)) l))
         (fst st),
       snd st ++ save_events W o filename
         (map (fun ir => (fst ir, g (snd ir))) (combine (zrange i (List.length l)) l))).
Proof.
  induction l as [|rot l IH]; intros pre i st Hi; simpl.
  - rewrite app_nil_r. destruct st; reflexivity.
  - assert (Himg : image_at W (pre ++ g rot :: map g l) i = g rot).
    { unfold image_at. subst i. rewrite Nat2Z.id. apply nth_middle. }
    specialize (IH (pre ++ [g rot]) (i + 1)).
    rewrite <- app_assoc in IH. simpl in IH.
    rewrite IH by (rewrite length_app; simpl; lia).
    simpl. rewrite Himg, <- app_assoc. reflexivity.
Qed.

Lemma save_images_spec (filename : string) (spherical_image : Image W)
    (st : FS W * list (event W)) :
  save_images o filename rotations
    (SphericalToPinholes W spherical_image pinhole_camera
       (repeat (fresh_image W o) (List.length rotations)) rotations) st
  = (save_fs W o filename (expected_pinholes W o pinhole_camera rotations spherical_image)
       (fst st),
     snd st ++ save_events W o filename
                 (expected_pinholes W o pinhole_camera rotations spherical_image)).
Proof.
  unfold save_images, for_upto. rewrite Nat2Z.id, for_int_fold.
  rewrite SphericalToPinholes_fresh.
  etransitivity.
  - exact (save_loop_spec filename
             (fun rot => sample_pinhole W spherical_image pinhole_camera rot
                           (fresh_image W o)) rotations [] 0 st eq_refl).
  - unfold expected_pinholes, indices. rewrite Nat2Z.id. reflexivity.
Qed.

(** The loop of [main] produces what section 6 describes. *)
Lemma convert_images_spec :
  forall (files : list string) (fs : FS W) (t : list (event W)),
    convert_images o pinhole_camera rotations files (fs, t)
    = (snd (conversion_spec W o pinhole_camera rotations files fs),
       t ++ fst (conversion_spec W o pinhole_camera rotations files fs)).
Proof.
  induction files as [|filename files IH]; intros fs t; simpl.
  - now rewrite app_nil_r.
  - destruct (ReadImage W fs (create_filespec W (s_directory_in o) filename))
      as [spherical_image|].
    + fold (fresh_image W o). rewrite save_images_spec. simpl.
      rewrite IH.
      destruct (conversion_spec W o pinhole_camera rotations files
                  (save_fs W o filename
                     (expected_pinholes W o pinhole_camera rotations spherical_image) fs))
        as [t' fs'].
      simpl. rewrite <- !app_assoc. reflexivity.
    + rewrite IH.
      destruct (conversion_spec W o pinhole_camera rotations files fs) as [t' fs'].
      simpl. rewrite <- app_assoc. reflexivity.
Qed.

End Conversion.

(** ** What the trace of the conversion loop holds *)

Section Conversion_trace.
Variable A : Arith.
Variable W : World A.

Lemma written_images_app (t1 t2 : list (event W)) :
  written_images (t1 ++ t2) = written_images t1 ++ written_images t2.
Proof.
  induction t1 as [|e t1 IH]; simpl; [reflexivity|].
  destruct e; simpl; rewrite ?IH; reflexivity.
Qed.

Lemma focal_files_app (t1 t2 : list (event W)) :
  focal_files (t1 ++ t2) = focal_files t1 ++ focal_files t2.
Proof.
  induction t1 as [|e t1 IH]; simpl; [reflexivity|].
  destruct e; simpl; rewrite ?IH; reflexivity.
Qed.

Lemma written_images_usage (argv : list string) (p : Parsed A) :
  written_images (usage W argv p) = [].
Proof. unfold usage. destruct (threw p); reflexivity. Qed.

Lemma focal_files_usage (argv : list string) (p : Parsed A) :
  focal_files (usage W argv p) = [].
Proof. unfold usage. destruct (threw p); reflexivity. Qed.

Lemma no_fatal_report_usage (argv : list string) (p : Parsed A) :
  existsb (@is_fatal_report A W) (usage W argv p) = false.
Proof. unfold usage. destruct (threw p); reflexivity. Qed.

Lemma no_svg_usage (argv : list string) (p : Parsed A) :
  existsb (@is_svg_written A W) (usage W argv p) = false.
Proof. unfold usage. destruct (threw p); reflexivity. Qed.

Variable o : Options A.
Variable pinhole_camera : Pinhole_Intrinsic A.
Variable rotations : list (Mat3 A).

Lemma written_images_save_events (filename : string) (outs : list (Z * Image W)) :
  written_images (save_events W o filename outs)
  = map (fun ii => (output_name W o filename (fst ii), snd ii)) outs.
Proof.
  induction outs as [|ii outs IH]; simpl; [reflexivity|].
  now rewrite IH.
Qed.

(** An event of the saving loop is a line on [cout] or an image file. *)
Lemma save_events_kinds (f : event W -> bool) (filename : string)
    (outs : list (Z * Image W)) :
  (forall b i, f (cout_cam_index b i) = false) ->
  (forall path img, f (image_written path img) = false) ->
  existsb f (save_events W o filename outs) = false.
Proof.
  intros Hcout Himg.
  induction outs as [|ii outs IH]; simpl; [reflexivity|].
  now rewrite Hcout, Himg, IH.
Qed.

(** Neither mode-foreign nor fatal events occur in the conversion loop. *)
Lemma conversion_spec_kinds (f : event W -> bool) :
  (forall path, f (cerr_cannot_read path) = false) ->
  (forall path, f (resampled path) = false) ->
  (forall b i, f (cout_cam_index b i) = false) ->
  (forall path img, f (image_written path img) = false) ->
  forall (files : list string) (fs : FS W),
    existsb f (fst (conversion_spec W o pinhole_camera rotations files fs)) = false.
Proof.
  intros Hread Hres Hcout Himg.
  induction files as [|filename files IH]; intros fs; simpl; [reflexivity|].
  destruct (ReadImage W fs (create_filespec W (s_directory_in o) filename))
    as [spherical_image|].
  - specialize (IH (save_fs W o filename
                      (expected_pinholes W o pinhole_camera rotations spherical_image) fs)).
    destruct (conversion_spec W o pinhole_camera rotations files _) as [t fs'].
    simpl in *. rewrite Hres, existsb_app, IH.
    rewrite save_events_kinds by assumption. reflexivity.
  - specialize (IH fs).
    destruct (conversion_spec W o pinhole_camera rotations files fs) as [t fs'].
    simpl in *. now rewrite Hread, IH.
Qed.

Lemma focal_files_conversion_spec (files : list string) :
  forall fs : FS W,
    focal_files (fst (conversion_spec W o pinhole_camera rotations files fs)) = [].
Proof.
  induction files as [|filename files IH]; intros fs; simpl; [reflexivity|].
  destruct (ReadImage W fs (create_filespec W (s_directory_in o) filename))
    as [spherical_image|].
  - specialize (IH (save_fs W o filename
                      (expected_pinholes W o pinhole_camera rotations spherical_image) fs)).
    destruct (conversion_spec W o pinhole_camera rotations files _) as [t fs'].
    simpl in *. rewrite focal_files_app, IH, app_nil_r.
    generalize (expected_pinholes W o pinhole_camera rotations spherical_image).
    intros outs. induction outs as [|ii outs IHo]; simpl; auto.
  - specialize (IH fs).
    destruct (conversion_spec W o pinhole_camera rotations files fs) as [t fs'].
    simpl in *. exact IH.
Qed.

(** When no panorama decodes, each one is reported and nothing else happens. *)
Lemma conversion_spec_all_fail (files : list string) (fs : FS W) :
  (forall f, In f files ->
     ReadImage W fs (create_filespec W (s_directory_in o) f) = None) ->
  conversion_spec W o pinhole_camera rotations files fs
  = (map (fun f => cerr_cannot_read (create_filespec W (s_directory_in o) f)) files, fs).
Proof.
  induction files as [|filename files IH]; intros Hfail; simpl; [reflexivity|].
  rewrite (Hfail filename) by (left; reflexivity).
  rewrite IH by (intros f Hf; apply Hfail; right; exact Hf).
  reflexivity.
Qed.

End Conversion_trace.

(** ** Conversion mode *)

Section Conversion_mode.
Variable A : Arith.
Variable W : World A.

Lemma combine_map_self (X Y : Type) (g : X -> Y) (l : list X) :
  combine l (map g l) = map (fun x => (x, g x)) l.
Proof.
  induction l as [|x l IH]; simpl; [reflexivity|]. now rewrite IH.
Qed.

(** The pinhole images of one panorama, camera by camera. *)
Lemma expected_pinholes_rig (o : Options A) (cam : Pinhole_Intrinsic A) (n : Z)
    (spherical_image : Image W) :
  expected_pinholes W o cam (camera_rotations A n) spherical_image
  = map (fun i => (i, sample_pinhole W spherical_image cam
                        (RotationAroundY (camera_angle A n i))
                        (Image_new W (image_resolution o) (image_resolution o) (BLACK W))))
        (indices n).
Proof.
  unfold expected_pinholes.
  rewrite camera_rotations_length, camera_rotations_map.
  unfold indices at 1. rewrite Nat2Z.id. fold (indices n).
  rewrite combine_map_self, map_map. reflexivity.
Qed.

(** A run that passes the start-up checks without [-D] is the conversion
    loop followed by the focal-length file. *)
Lemma conversion_run (fuel : nat) (argv : list string) (fs fs1 : FS W)
    (files : list string) :
  started W argv fs fs1 files ->
  used_D (parse_command_line W argv) = false ->
  let p := parse_command_line W argv in
  let o := vars p in
  let conv := conversion_spec W o (main_pinhole_camera W o)
                (camera_rotations A (nb_split o)) files fs1 in
  let path := create_filespec W (s_directory_out o) "focal.txt" in
  main W fuel argv fs
  = Some {| exit_code := EXIT_SUCCESS;
            trace := usage W argv p ++ fst conv ++ [focal_written path (main_focal o)];
            final_fs := ofstream_write W (snd conv) path (print_double W (main_focal o)) |}.
Proof.
  intros Hstart HD. cbv zeta.
  rewrite (main_started A W fuel argv fs fs1 files Hstart). cbv zeta.
  rewrite HD. unfold conversion_mode.
  rewrite convert_images_spec. simpl. rewrite <- app_assoc. reflexivity.
Qed.

(** C3.  A resolution or a split count of 0 passes the checks of lines 65-74
    (they test [< 0]): the run reports no fatal error, ends with
    [EXIT_SUCCESS] and writes the focal-length file. *)
Theorem zero_resolution_or_split_is_accepted (fuel : nat) (argv : list string)
    (fs fs1 : FS W) (files : list string) :
  started W argv fs fs1 files ->
  used_D (parse_command_line W argv) = false ->
  image_resolution (vars (parse_command_line W argv)) = 0
  \/ nb_split (vars (parse_command_line W argv)) = 0 ->
  exists out,
    main W fuel argv fs = Some out
    /\ exit_code out = EXIT_SUCCESS
    /\ existsb (@is_fatal_report A W) (trace out) = false
    /\ focal_files (trace out)
       = [(create_filespec W (s_directory_out (vars (parse_command_line W argv)))
             "focal.txt",
           main_focal (vars (parse_command_line W argv)))].
Proof.
  intros Hstart HD _.
  eexists. split; [apply (conversion_run fuel argv fs fs1 files Hstart HD)|].
  simpl. split; [reflexivity|]. split.
  - rewrite !existsb_app, no_fatal_report_usage.
    rewrite conversion_spec_kinds by reflexivity. reflexivity.
  - rewrite !focal_files_app, focal_files_usage, focal_files_conversion_spec.
    reflexivity.
Qed.

(** C9.  When no panorama decodes, conversion mode reports each of them, writes
    no image, writes the focal-length file and ends with [EXIT_SUCCESS]. *)
Theorem all_decodes_fail_still_success (fuel : nat) (argv : list string)
    (fs fs1 : FS W) (files : list string) :
  started W argv fs fs1 files ->
  used_D (parse_command_line W argv) = false ->
  (forall f, In f files ->
     ReadImage W fs1
       (create_filespec W (s_directory_in (vars (parse_command_line W argv))) f)
     = None) ->
  let p := parse_command_line W argv in
  let o := vars p in
  let path := create_filespec W (s_directory_out o) "focal.txt" in
  exists out,
    main W fuel argv fs = Some out
    /\ exit_code out = EXIT_SUCCESS
    /\ trace out
       = usage W argv p
         ++ map (fun f => cerr_cannot_read (create_filespec W (s_directory_in o) f)) files
         ++ [focal_written path (main_focal o)]
    /\ written_images (trace out) = []
    /\ final_fs out = ofstream_write W fs1 path (print_double W (main_focal o)).
Proof.
  intros Hstart HD Hfail. cbv zeta.
  eexists. split; [apply (conversion_run fuel argv fs fs1 files Hstart HD)|].
  cbv zeta. rewrite conversion_spec_all_fail by exact Hfail. simpl.
  split; [reflexivity|]. split; [reflexivity|]. split; [|reflexivity].
  rewrite !written_images_app, written_images_usage. simpl.
  rewrite app_nil_r. clear.
  induction files as [|f files' IH]; simpl; auto.
Qed.

End Conversion_mode.

Section Conversion_results.
Variable A : Arith.
Variable W : World A.

Lemma flat_map_map (X Y Z' : Type) (g : X -> Y) (f : Y -> list Z') (l : list X) :
  flat_map f (map g l) = flat_map (fun x => f (g x)) l.
Proof.
  induction l as [|x l IH]; simpl; [reflexivity|]. now rewrite IH.
Qed.

(** One panorama that decodes: the loop hands a vector of fresh images to the
    resampler and writes the result, one file per camera index. *)
Lemma convert_one_decoded (o : Options A) (cam : Pinhole_Intrinsic A) (n : Z)
    (filename : string) (rest : list string) (fs : FS W) (t : list (event W))
    (spherical_image : Image W) :
  ReadImage W fs (create_filespec W (s_directory_in o) filename) = Some spherical_image ->
  exists fs',
    convert_images o cam (camera_rotations A n) (filename :: rest) (fs, t)
    = convert_images o cam (camera_rotations A n) rest
        (fs',
         t ++ resampled (create_filespec W (s_directory_in o) filename)
           :: flat_map
                (fun i =>
                   [cout_cam_index (basename_part W filename) i;
                    image_written
                      (jpg_name (s_directory_out o) (basename_part W filename) i)
                      (sample_pinhole W spherical_image cam
                         (RotationAroundY (camera_angle A n i))
                         (Image_new W (image_resolution o) (image_resolution o)
                            (BLACK W)))])
                (indices n)).
Proof.
  intros Hread. simpl. rewrite Hread.
  fold (fresh_image W o). rewrite save_images_spec. simpl.
  rewrite expected_pinholes_rig. unfold save_events.
  rewrite flat_map_map. simpl.
  eexists. rewrite <- app_assoc. reflexivity.
Qed.

Lemma conversion_spec_one_of_two (o : Options A) (cam : Pinhole_Intrinsic A)
    (rots : list (Mat3 A)) (files : list string) (fs : FS W)
    (good bad : string) (spherical_image : Image W) :
  files = [good; bad] \/ files = [bad; good] ->
  ReadImage W fs (create_filespec W (s_directory_in o) good) = Some spherical_image ->
  (forall fs', ReadImage W fs' (create_filespec W (s_directory_in o) bad) = None) ->
  In (cerr_cannot_read (create_filespec W (s_directory_in o) bad))
     (fst (conversion_spec W o cam rots files fs))
  /\ written_images (fst (conversion_spec W o cam rots files fs))
     = map (fun ii => (output_name W o good (fst ii), snd ii))
           (expected_pinholes W o cam rots spherical_image).
Proof.
  intros [-> | ->] Hgood Hbad; cbn [conversion_spec].
  - rewrite Hgood, Hbad. cbn [fst]. split.
    + right. apply in_or_app. right. left. reflexivity.
    + cbn [written_images]. rewrite written_images_app, written_images_save_events.
      cbn [written_images]. apply app_nil_r.
  - rewrite Hbad, Hgood. cbn [fst]. split.
    + left. reflexivity.
    + cbn [written_images]. rewrite app_nil_r. apply written_images_save_events.
Qed.

(** C5.  A panorama that does not decode is reported on the error stream and
    skipped, the loop goes on with the next one, and the run still ends with
    [EXIT_SUCCESS]; with one panorama that decodes and one that does not,
    the nb_split images of the former are written. *)
Theorem decode_failure_is_skipped (fuel : nat) (argv : list string)
    (fs fs1 : FS W) (files : list string) :
  started W argv fs fs1 files ->
  used_D (parse_command_line W argv) = false ->
  let o := vars (parse_command_line W argv) in
  let cam := main_pinhole_camera W o in
  let rots := camera_rotations A (nb_split o) in
  (exists out, main W fuel argv fs = Some out /\ exit_code out = EXIT_SUCCESS)
  /\ (forall filename rest fs' t,
        ReadImage W fs' (create_filespec W (s_directory_in o) filename) = None ->
        convert_images o cam rots (filename :: rest) (fs', t)
        = convert_images o cam rots rest
            (fs', t ++ [cerr_cannot_read (create_filespec W (s_directory_in o) filename)]))
  /\ (forall good bad spherical_image,
        files = [good; bad] \/ files = [bad; good] ->
        ReadImage W fs1 (create_filespec W (s_directory_in o) good)
        = Some spherical_image ->
        (forall fs', ReadImage W fs' (create_filespec W (s_directory_in o) bad) = None) ->
        exists out,
          main W fuel argv fs = Some out
          /\ exit_code out = EXIT_SUCCESS
          /\ In (cerr_cannot_read (create_filespec W (s_directory_in o) bad)) (trace out)
          /\ written_paths (trace out)
             = map (jpg_name (s_directory_out o) (basename_part W good))
                   (indices (nb_split o))
          /\ List.length (written_paths (trace out)) = Z.to_nat (nb_split o)).
Proof.
  intros Hstart HD. cbv zeta.
  pose proof (conversion_run A W fuel argv fs fs1 files Hstart HD) as Hrun.
  cbv zeta in Hrun.
  split; [|split].
  - eexists. split; [exact Hrun | reflexivity].
  - intros filename rest fs' t Hread. simpl. rewrite Hread. reflexivity.
  - intros good bad spherical_image Horder Hgood Hbad.
    destruct (conversion_spec_one_of_two
                (vars (parse_command_line W argv))
                (main_pinhole_camera W (vars (parse_command_line W argv)))
                (camera_rotations A (nb_split (vars (parse_command_line W argv))))
                files fs1 good bad spherical_image Horder Hgood Hbad)
      as [Hin Himgs].
    assert (Hpaths :
      written_paths
        (usage W argv (parse_command_line W argv)
         ++ fst (conversion_spec W (vars (parse_command_line W argv))
                   (main_pinhole_camera W (vars (parse_command_line W argv)))
                   (camera_rotations A (nb_split (vars (parse_command_line W argv))))
                   files fs1)
         ++ [focal_written
               (create_filespec W (s_directory_out (vars (parse_command_line W argv)))
                  "focal.txt")
               (main_focal (vars (parse_command_line W argv)))])
      = map (jpg_name (s_directory_out (vars (parse_command_line W argv)))
               (basename_part W good))
            (indices (nb_split (vars (parse_command_line W argv))))).
    { unfold written_paths.
      rewrite !written_images_app, written_images_usage, Himgs.
      cbn [written_images app]. rewrite app_nil_r.
      rewrite expected_pinholes_rig, !map_map. reflexivity. }
    eexists. split; [exact Hrun|]. cbn [exit_code trace].
    split; [reflexivity|]. split; [|split].
    + apply in_or_app. right. apply in_or_app. left. exact Hin.
    + exact Hpaths.
    + rewrite Hpaths, length_map. apply zrange_length.
Qed.

End Conversion_results.

(** ** The field of view and what a run produces *)

Section Field_of_view.
Variable A : Arith.
Variable W : World A.

Lemma conversion_spec_ext (o1 o2 : Options A) (cam : Pinhole_Intrinsic A)
    (rots : list (Mat3 A)) :
  s_directory_in o1 = s_directory_in o2 ->
  s_directory_out o1 = s_directory_out o2 ->
  image_resolution o1 = image_resolution o2 ->
  forall (files : list string) (fs : FS W),
    conversion_spec W o1 cam rots files fs = conversion_spec W o2 cam rots files fs.
Proof.
  intros Hin Hout Hres.
  induction files as [|filename files IH]; intros fs; simpl; [reflexivity|].
  unfold expected_pinholes, fresh_image, save_fs, save_events, output_name.
  rewrite Hin, Hout, Hres.
  destruct (ReadImage W fs (create_filespec W (s_directory_in o2) filename));
    rewrite IH; reflexivity.
Qed.

Lemma without_fov_usage (argv : list string) (p : Parsed A) (f : double A) :
  map (@without_fov A W) (usage W argv (with_fov_read p f))
  = map (@without_fov A W) (usage W argv p).
Proof. unfold usage; simpl. destruct (threw p); reflexivity. Qed.

Lemma written_images_without_fov (t : list (event W)) :
  written_images (map (@without_fov A W) t) = written_images t.
Proof.
  induction t as [|e t IH]; simpl; [reflexivity|].
  destruct e; simpl; rewrite ?IH; reflexivity.
Qed.

Lemma failure_without_fov (argv : list string) (p : Parsed A) (f : double A)
    (line : string) (fs : FS W) :
  seen (failure (usage W argv (with_fov_read p f)) line fs)
  = seen (failure (usage W argv p) line fs).
Proof.
  unfold seen, failure; simpl. rewrite !map_app, without_fov_usage. reflexivity.
Qed.

(** Up to the value in the focal-length file and the value shown in the usage
    text, the run does not depend on [fov]. *)
Lemma run_without_fov (fuel : nat) (argv : list string) (p : Parsed A)
    (f : double A) (fs : FS W) :
  option_map (@seen A W) (run W fuel argv (with_fov_read p f) fs)
  = option_map (@seen A W) (run W fuel argv p fs).
Proof.
  unfold run. cbn [vars with_fov_read with_fov image_resolution nb_split
                   s_directory_in s_directory_out used_D].
  destruct (image_resolution (vars p) <? 0);
    [cbn [option_map]; now rewrite failure_without_fov|].
  destruct (nb_split (vars p) <? 0);
    [cbn [option_map]; now rewrite failure_without_fov|].
  destruct (is_empty (s_directory_in (vars p)) || is_empty (s_directory_out (vars p)));
    [cbn [option_map]; now rewrite failure_without_fov|].
  destruct (ensure_output_dir W fs (s_directory_out (vars p))) as [created fs1].
  destruct created; cbn [negb];
    [|cbn [option_map]; now rewrite failure_without_fov].
  destruct (folder_wildcard W fs1 (s_directory_in (vars p)) "*.jpg")
    as [|filename files];
    [cbn [option_map]; now rewrite failure_without_fov|].
  destruct (used_D p).
  - unfold demo_mode, main_pinhole_camera.
    cbn [with_fov image_resolution s_directory_out].
    destruct (draw_frustums W fuel 4096 (4096 / 2) (image_resolution (vars p))
                (ComputeCubicCameraIntrinsics W (image_resolution (vars p)))
                (camera_rotations A (nb_split (vars p)))
                _) as [drawn|]; [|reflexivity].
    cbn [option_map]. unfold seen; cbn [exit_code trace].
    rewrite !map_app, without_fov_usage. reflexivity.
  - cbn [option_map]. unfold conversion_mode, seen; cbn [exit_code trace].
    rewrite !convert_images_spec. cbn [snd].
    rewrite (conversion_spec_ext (with_fov (vars p) f) (vars p)
               (main_pinhole_camera W (with_fov (vars p) f))
               (camera_rotations A (nb_split (vars p)))
               eq_refl eq_refl eq_refl).
    unfold main_pinhole_camera. cbn [with_fov image_resolution s_directory_out].
    rewrite !map_app, without_fov_usage. reflexivity.
Qed.

(** Two runs whose command lines differ in [fov] only write the same
    pinhole images under the same names and end with the same exit code;
    apart from the value in the focal-length file (and the value the usage
    text shows), their traces are the same. *)
Theorem fov_reaches_only_the_focal_file (fuel : nat) (argv1 argv2 : list string)
    (f : double A) (fs : FS W) :
  hd EmptyString argv2 = hd EmptyString argv1 ->
  parse_command_line W argv2 = with_fov_read (parse_command_line W argv1) f ->
  option_map (fun out => written_images (trace out)) (main W fuel argv2 fs)
  = option_map (fun out => written_images (trace out)) (main W fuel argv1 fs)
  /\ option_map (@exit_code A W) (main W fuel argv2 fs)
     = option_map (@exit_code A W) (main W fuel argv1 fs)
  /\ option_map (fun out => map (@without_fov A W) (trace out)) (main W fuel argv2 fs)
     = option_map (fun out => map (@without_fov A W) (trace out)) (main W fuel argv1 fs).
Proof.
  intros Hprog Hparse.
  assert (Hseen : option_map (@seen A W) (main W fuel argv2 fs)
                  = option_map (@seen A W) (main W fuel argv1 fs)).
  { assert (Husage : forall p, usage W argv2 p = usage W argv1 p)
      by (intros p; unfold usage; now rewrite Hprog).
    unfold main. rewrite Hparse.
    rewrite <- (run_without_fov fuel argv1 (parse_command_line W argv1) f fs).
    unfold run. rewrite Husage. reflexivity. }
  destruct (main W fuel argv2 fs) as [out2|], (main W fuel argv1 fs) as [out1|];
    simpl in Hseen; try discriminate; [|repeat split; reflexivity].
  injection Hseen as Hcode Htrace. simpl.
  split; [|split].
  - rewrite <- (written_images_without_fov (trace out2)), Htrace.
    now rewrite written_images_without_fov.
  - now rewrite Hcode.
  - now rewrite Htrace.
Qed.

End Field_of_view.

(** ** Demo mode *)

Section Demo_mode.
Variable A : Arith.
Variable W : World A.

Lemma border_loop_samples (r : Z) (body : double A -> list (svgPrimitive A)) :
  forall (fuel : nat) (j : double A) (svgStream : list (svgPrimitive A)),
    border_loop fuel r body j svgStream
    = option_map (fun js => svgStream ++ flat_map body js) (border_samples A fuel r j).
Proof.
  induction fuel as [|fuel IH]; intros j svgStream; simpl; [reflexivity|].
  destruct (dleb A j (of_int A r)); simpl.
  - rewrite IH.
    destruct (border_samples A fuel r _) as [js|]; simpl; [|reflexivity].
    now rewrite <- app_assoc.
  - now rewrite app_nil_r.
Qed.

Lemma border_samples_fuel (r : Z) :
  forall (fuel : nat) (j : double A) (js : list (double A)),
    border_samples A fuel r j = Some js ->
    forall more, border_samples A (fuel + more) r j = Some js.
Proof.
  induction fuel as [|fuel IH]; intros j js Hjs more; simpl in *; [discriminate|].
  destruct (dleb A j (of_int A r)); [|exact Hjs].
  destruct (border_samples A fuel r _) as [js'|] eqn:Hrec; [|discriminate].
  now rewrite (IH _ _ Hrec more).
Qed.

Lemma border_loop_ends_sound (fuel : nat) (count : nat) :
  forall first,
    border_loop_ends A fuel first count = true ->
    forall r, first <= r < first + Z.of_nat count ->
      exists js, border_samples A fuel r (of_int A 0) = Some js.
Proof.
  induction count as [|count IH]; intros first Hends r Hr; [lia|].
  simpl in Hends.
  destruct (border_samples A fuel first (of_int A 0)) as [js|] eqn:Hfirst;
    [|discriminate].
  destruct (Z.eq_dec r first) as [->|Hne].
  - exists js. exact Hfirst.
  - apply (IH (first + 1) Hends). lia.
Qed.

Lemma draw_frustums_samples (fuel : nat) (pano_width pano_height r : Z)
    (cam : Pinhole_Intrinsic A) (js : list (double A)) :
  border_samples A fuel r (of_int A 0) = Some js ->
  forall (rots : list (Mat3 A)) (svgStream : list (svgPrimitive A)),
    draw_frustums W fuel pano_width pano_height r cam rots svgStream
    = Some (svgStream
            ++ flat_map (frustum_markers W pano_width pano_height r cam js) rots).
Proof.
  intros Hjs.
  induction rots as [|rot rots IH]; intros svgStream; simpl.
  - now rewrite app_nil_r.
  - rewrite !border_loop_samples, Hjs. simpl.
    rewrite border_loop_samples, Hjs. simpl.
    rewrite IH. unfold frustum_markers. now rewrite <- !app_assoc.
Qed.

(** A run that passes the start-up checks with [-D], as long as the border
    loops end. *)
Lemma demo_run (fuel : nat) (argv : list string) (fs fs1 : FS W)
    (files : list string) (js : list (double A)) :
  started W argv fs fs1 files ->
  used_D (parse_command_line W argv) = true ->
  border_samples A fuel (image_resolution (vars (parse_command_line W argv)))
    (of_int A 0) = Some js ->
  let p := parse_command_line W argv in
  let o := vars p in
  let path := create_filespec W (s_directory_out o) "test.svg" in
  let drawn :=
    reference_lines A
    ++ flat_map (frustum_markers W 4096 2048 (image_resolution o)
                   (main_pinhole_camera W o) js)
                (camera_rotations A (nb_split o)) in
  main W fuel argv fs
  = Some {| exit_code := EXIT_SUCCESS;
            trace := usage W argv p ++ [svg_written path 4096 2048 drawn];
            final_fs := ofstream_write W fs1 path (closeSvgFile W 4096 2048 drawn) |}.
Proof.
  intros Hstart HD Hjs. cbv zeta.
  rewrite (main_started A W fuel argv fs fs1 files Hstart). cbv zeta.
  rewrite HD. unfold demo_mode.
  change (4096 / 2) with 2048.
  rewrite (draw_frustums_samples fuel 4096 2048 _ _ js Hjs).
  reflexivity.
Qed.

(** Whatever the border loops do, a run with [-D] that ends has written the
    drawing and nothing else. *)
Lemma demo_run_only_draws (fuel : nat) (argv : list string) (fs fs1 : FS W)
    (files : list string) (out : Outcome W) :
  started W argv fs fs1 files ->
  used_D (parse_command_line W argv) = true ->
  main W fuel argv fs = Some out ->
  exit_code out = EXIT_SUCCESS
  /\ exists drawn,
       trace out
       = usage W argv (parse_command_line W argv)
         ++ [svg_written
               (create_filespec W (s_directory_out (vars (parse_command_line W argv)))
                  "test.svg")
               4096 2048 drawn].
Proof.
  intros Hstart HD Hmain.
  rewrite (main_started A W fuel argv fs fs1 files Hstart) in Hmain.
  cbv zeta in Hmain. rewrite HD in Hmain. unfold demo_mode in Hmain.
  destruct (draw_frustums W fuel _ _ _ _ _ _) as [drawn|]; [|discriminate].
  injection Hmain as <-. simpl. split; [reflexivity|].
  exists drawn. reflexivity.
Qed.

(** *** Counting what was drawn *)

Lemma count_app (f : svgPrimitive A -> bool) (l1 l2 : list (svgPrimitive A)) :
  count f (l1 ++ l2) = (count f l1 + count f l2)%nat.
Proof. unfold count. now rewrite filter_app, length_app. Qed.

Lemma count_flat_map (X : Type) (f : svgPrimitive A -> bool)
    (g : X -> list (svgPrimitive A)) (c : nat) (l : list X) :
  (forall x, count f (g x) = c) ->
  count f (flat_map g l) = (List.length l * c)%nat.
Proof.
  intros Hg. induction l as [|x l IH]; simpl; [reflexivity|].
  now rewrite count_app, Hg, IH.
Qed.

Lemma count_frustums (f : svgPrimitive A -> bool) (cv ch : nat)
    (pano_width pano_height r : Z) (cam : Pinhole_Intrinsic A)
    (js : list (double A)) (rots : list (Mat3 A)) :
  (forall rot j, count f (vertical_border W pano_width pano_height r cam rot j) = cv) ->
  (forall rot j, count f (horizontal_border W pano_width pano_height r cam rot j) = ch) ->
  count f (flat_map (frustum_markers W pano_width pano_height r cam js) rots)
  = (List.length rots * (List.length js * cv + List.length js * ch))%nat.
Proof.
  intros Hv Hh. apply count_flat_map. intros rot.
  unfold frustum_markers. rewrite count_app.
  rewrite (count_flat_map _ f _ cv js (Hv rot)).
  rewrite (count_flat_map _ f _ ch js (Hh rot)).
  reflexivity.
Qed.

End Demo_mode.

(** In real arithmetic the border loop takes step + 1 = 11 samples at every
    positive resolution. *)
Lemma exact_border_samples (r : Z) :
  0 < r ->
  exists js, border_samples exact 12 r (of_int exact 0) = Some js
             /\ List.length js = 11%nat.
Proof.
  intros Hr. assert (HR : (0 < IZR r)%R) by (apply IZR_lt; lia).
  unfold border_samples; simpl. unfold step.
  repeat (unfold Rleb at 1;
          destruct (Rle_dec _ _) as [_|Hn]; [|exfalso; apply Hn; lra]; simpl).
  unfold Rleb at 1; destruct (Rle_dec _ _) as [Hle|_]; [exfalso; lra|].
  eexists. split; reflexivity.
Qed.

(** ** Demo mode on IEEE 754 arithmetic *)

Section Demo_binary64.
Variables libm_tan libm_cos libm_sin : float -> float.
Let B : Arith := binary64 libm_tan libm_cos libm_sin.
Variable W : World B.

(** For every resolution from 1 to 65535 (the largest side a JPEG file can
    record) the border loop ends within twelve iterations; checked resolution
    by resolution. *)
Lemma binary64_border_loops_end :
  border_loop_ends B 12 1 (Z.to_nat 65535) = true.
Proof. vm_compute. reflexivity. Qed.

Lemma binary64_border_samples (r : Z) (fuel : nat) :
  0 < r <= 65535 -> (12 <= fuel)%nat ->
  exists js, border_samples B fuel r (of_int B 0) = Some js.
Proof.
  intros Hr Hfuel.
  destruct (border_loop_ends_sound B 12 (Z.to_nat 65535) 1
              binary64_border_loops_end r ltac:(lia)) as [js Hjs].
  exists js. replace fuel with (12 + (fuel - 12))%nat by lia.
  apply border_samples_fuel. exact Hjs.
Qed.

(** At the default resolution the loop takes the eleven samples
    0, 102.4, ..., 1024. *)
Lemma binary64_border_samples_1024 (fuel : nat) :
  (12 <= fuel)%nat ->
  exists js, border_samples B fuel 1024 (of_int B 0) = Some js
             /\ List.length js = 11%nat.
Proof.
  intros Hfuel.
  assert (H12 : exists js, border_samples B 12 1024 (of_int B 0) = Some js
                           /\ List.length js = 11%nat).
  { vm_compute. eexists. split; reflexivity. }
  destruct H12 as (js & Hjs & Hlen).
  exists js. split; [|exact Hlen].
  replace fuel with (12 + (fuel - 12))%nat by lia.
  apply border_samples_fuel. exact Hjs.
Qed.

(** At resolution 7 the sum of ten steps of 0.7 exceeds 7 and the loop takes
    ten samples only. *)
Remark binary64_border_samples_7 :
  exists js, border_samples B 12 7 (of_int B 0) = Some js
             /\ List.length js = 10%nat.
Proof. vm_compute. eexists. split; reflexivity. Qed.

(** At resolution 0 the step is 0 and the loop never ends. *)
Remark binary64_border_loop_at_zero (fuel : nat) :
  border_samples B fuel 0 (of_int B 0) = None.
Proof.
  induction fuel as [|fuel IH]; [reflexivity|].
  change (border_samples B (S fuel) 0 (of_int B 0))
    with (option_map (cons (of_int B 0)) (border_samples B fuel 0 (of_int B 0))).
  now rewrite IH.
Qed.

Lemma no_artifact_usage (argv : list string) (p : Parsed B) :
  existsb (@is_conversion_artifact B W) (usage W argv p) = false.
Proof. unfold usage. destruct (threw p); reflexivity. Qed.

(** C7.  A run with [-D] does not always end: at [image_resolution] = 0,
    which the test of line 65 lets through, the step of the border loops of
    lines 143 and 153 is 0, and with at least one camera the run never leaves
    the first of them, whatever the number of iterations allowed. *)
Remark demo_at_zero_resolution_never_ends (fuel : nat) (argv : list string)
    (fs fs1 : FS W) (files : list string) :
  started W argv fs fs1 files ->
  used_D (parse_command_line W argv) = true ->
  image_resolution (vars (parse_command_line W argv)) = 0 ->
  1 <= nb_split (vars (parse_command_line W argv)) ->
  main W fuel argv fs = None.
Proof.
  intros Hstart HD Hres Hsplit.
  rewrite (main_started B W fuel argv fs fs1 files Hstart). cbv zeta.
  rewrite HD. unfold demo_mode.
  rewrite camera_rotations_map. unfold indices.
  destruct (Z.to_nat (nb_split (vars (parse_command_line W argv)))) as [|n] eqn:Hn;
    [lia|].
  cbn [zrange map draw_frustums].
  rewrite border_loop_samples, Hres, binary64_border_loop_at_zero.
  reflexivity.
Qed.

(** Once the start-up checks have passed, the run is in exactly one of
    two modes, chosen by the switch [-D] alone.  With [-D]: a run that ends,
    ends with [EXIT_SUCCESS] having only written the drawing (no resampling,
    no pinhole image, no focal-length file), and it does end for every
    resolution from 1 to 65535.  Without [-D]: the run is the conversion, ends
    with [EXIT_SUCCESS] and writes no drawing. *)
Theorem one_mode_per_run (fuel : nat) (argv : list string) (fs fs1 : FS W)
    (files : list string) :
  started W argv fs fs1 files ->
  let p := parse_command_line W argv in
  let o := vars p in
  (used_D p = true ->
     (forall out,
        main W fuel argv fs = Some out ->
        exit_code out = EXIT_SUCCESS
        /\ existsb (@is_conversion_artifact B W) (trace out) = false
        /\ exists drawn,
             trace out
             = usage W argv p
               ++ [svg_written (create_filespec W (s_directory_out o) "test.svg")
                     4096 2048 drawn])
     /\ (0 < image_resolution o <= 65535 -> (12 <= fuel)%nat ->
         exists out, main W fuel argv fs = Some out))
  /\ (used_D p = false ->
      exists out,
        main W fuel argv fs = Some out
        /\ exit_code out = EXIT_SUCCESS
        /\ existsb (@is_svg_written B W) (trace out) = false).
Proof.
  intros Hstart. cbv zeta. split.
  - intros HD. split.
    + intros out Hmain.
      destruct (demo_run_only_draws B W fuel argv fs fs1 files out Hstart HD Hmain)
        as (Hcode & drawn & Htrace).
      split; [exact Hcode|]. split; [|exists drawn; exact Htrace].
      rewrite Htrace, existsb_app, no_artifact_usage. reflexivity.
    + intros Hr Hfuel.
      destruct (binary64_border_samples _ fuel Hr Hfuel) as [js Hjs].
      eexists. apply (demo_run B W fuel argv fs fs1 files js Hstart HD Hjs).
  - intros HD.
    eexists. split; [apply (conversion_run B W fuel argv fs fs1 files Hstart HD)|].
    cbn [exit_code trace]. split; [reflexivity|].
    rewrite !existsb_app, no_svg_usage.
    rewrite conversion_spec_kinds by reflexivity. reflexivity.
Qed.

(** The number of markers of each colour when the border loops take the
    samples [js]. *)
Lemma frustum_marker_counts (r : Z) (cam : Pinhole_Intrinsic B)
    (js : list (double B)) (rots : list (Mat3 B)) :
  let drawn := reference_lines B ++ flat_map (frustum_markers W 4096 2048 r cam js) rots in
  count (@is_any_circle B) drawn = (List.length rots * (4 * List.length js))%nat
  /\ count (@is_circle B "green") drawn = (List.length rots * (2 * List.length js))%nat
  /\ count (@is_circle B "yellow") drawn = (List.length rots * (2 * List.length js))%nat
  /\ count (@is_line B) drawn = 2%nat.
Proof.
  cbv zeta. rewrite !count_app.
  rewrite (count_frustums B W (@is_any_circle B) 2 2) by reflexivity.
  rewrite (count_frustums B W (@is_circle B "green") 2 0) by reflexivity.
  rewrite (count_frustums B W (@is_circle B "yellow") 0 2) by reflexivity.
  rewrite (count_frustums B W (@is_line B) 0 0) by reflexivity.
  change (count (@is_any_circle B) (reference_lines B)) with 0%nat.
  change (count (@is_circle B "green") (reference_lines B)) with 0%nat.
  change (count (@is_circle B "yellow") (reference_lines B)) with 0%nat.
  change (count (@is_line B) (reference_lines B)) with 2%nat.
  repeat split; lia.
Qed.

End Demo_binary64.

Section Demo_default_resolution.
Variables libm_tan libm_cos libm_sin : float -> float.
Let B : Arith := binary64 libm_tan libm_cos libm_sin.
Variable W : World B.

(** The drawing of a demo run with five cameras at resolution 1024. *)
Lemma demo_default_markers (fuel : nat) (argv : list string) (fs fs1 : FS W)
    (files : list string) :
  started W argv fs fs1 files ->
  used_D (parse_command_line W argv) = true ->
  image_resolution (vars (parse_command_line W argv)) = 1024 ->
  nb_split (vars (parse_command_line W argv)) = 5 ->
  (12 <= fuel)%nat ->
  exists out drawn,
    main W fuel argv fs = Some out
    /\ exit_code out = EXIT_SUCCESS
    /\ trace out
       = usage W argv (parse_command_line W argv)
         ++ [svg_written
               (create_filespec W (s_directory_out (vars (parse_command_line W argv)))
                  "test.svg")
               4096 2048 drawn]
    /\ firstn 2 drawn = reference_lines B
    /\ count (@is_any_circle B) drawn = 220%nat
    /\ count (@is_circle B "green") drawn = 110%nat
    /\ count (@is_circle B "yellow") drawn = 110%nat
    /\ count (@is_line B) drawn = 2%nat.
Proof.
  intros Hstart HD Hres Hsplit Hfuel.
  destruct (binary64_border_samples_1024 libm_tan libm_cos libm_sin fuel Hfuel)
    as (js & Hjs & Hlen).
  rewrite <- Hres in Hjs.
  eexists. eexists.
  split; [apply (demo_run B W fuel argv fs fs1 files js Hstart HD Hjs)|].
  cbn [exit_code trace]. split; [reflexivity|]. split; [reflexivity|].
  split; [reflexivity|].
  destruct (frustum_marker_counts libm_tan libm_cos libm_sin W
              (image_resolution (vars (parse_command_line W argv)))
              (main_pinhole_camera W (vars (parse_command_line W argv)))
              js
              (camera_rotations B (nb_split (vars (parse_command_line W argv)))))
    as (Hany & Hgreen & Hyellow & Hline).
  assert (Hn : Z.to_nat (nb_split (vars (parse_command_line W argv))) = 5%nat)
    by (rewrite Hsplit; reflexivity).
  rewrite camera_rotations_length, Hn, Hlen in Hany, Hgreen, Hyellow.
  split; [exact Hany|]. split; [exact Hgreen|]. split; [exact Hyellow | exact Hline].
Qed.

End Demo_default_resolution.

(** * Closed runs in the sample world *)

Section Sample_runs.
Local Open Scope string_scope.

Lemma sample_started_conversion :
  started Sample.world ["pano_converter"; "-i"; "in"; "-o"; "out"] []
    ["out"] ["pano.jpg"; "broken.jpg"].
Proof. constructor; vm_compute; try reflexivity; discriminate. Qed.

Lemma sample_started_no_split :
  started Sample.world ["pano_converter"; "-i"; "in"; "-o"; "out"; "-n"; "0"] []
    ["out"] ["pano.jpg"; "broken.jpg"].
Proof. constructor; vm_compute; try reflexivity; discriminate. Qed.

Lemma sample_started_all_broken :
  started Sample.world ["pano_converter"; "-i"; "bad"; "-o"; "out"] []
    ["out"] ["broken.jpg"].
Proof. constructor; vm_compute; try reflexivity; discriminate. Qed.

Lemma sample_started_demo :
  started Sample.world ["pano_converter"; "-i"; "in"; "-o"; "out"; "-D"] []
    ["out"] ["pano.jpg"; "broken.jpg"].
Proof. constructor; vm_compute; try reflexivity; discriminate. Qed.

Lemma zero_resolution_or_split_is_accepted_witness :
  nb_split (vars (parse_command_line Sample.world
                    ["pano_converter"; "-i"; "in"; "-o"; "out"; "-n"; "0"])) = 0
  /\ exists out,
       main Sample.world 0 ["pano_converter"; "-i"; "in"; "-o"; "out"; "-n"; "0"] []
       = Some out
       /\ exit_code out = EXIT_SUCCESS.
Proof.
  split; [reflexivity|].
  destruct (zero_resolution_or_split_is_accepted Sample.arith Sample.world 0
              ["pano_converter"; "-i"; "in"; "-o"; "out"; "-n"; "0"] []
              ["out"] ["pano.jpg"; "broken.jpg"]
              sample_started_no_split eq_refl (or_intror eq_refl))
    as (out & Hmain & Hcode & _).
  exists out. split; [exact Hmain | exact Hcode].
Defined.

Lemma all_decodes_fail_still_success_witness :
  exists out,
    main Sample.world 0 ["pano_converter"; "-i"; "bad"; "-o"; "out"] [] = Some out
    /\ exit_code out = EXIT_SUCCESS
    /\ written_images (trace out) = [].
Proof.
  assert (Hfail : forall f, In f ["broken.jpg"] ->
            ReadImage Sample.world ["out"]
              (create_filespec Sample.world
                 (s_directory_in
                    (vars (parse_command_line Sample.world
                             ["pano_converter"; "-i"; "bad"; "-o"; "out"]))) f)
            = None).
  { intros f [<- | []]. reflexivity. }
  destruct (all_decodes_fail_still_success Sample.arith Sample.world 0
              ["pano_converter"; "-i"; "bad"; "-o"; "out"] []
              ["out"] ["broken.jpg"] sample_started_all_broken eq_refl Hfail)
    as (out & Hmain & Hcode & _ & Hnone & _).
  exists out. split; [exact Hmain|]. split; [exact Hcode | exact Hnone].
Defined.

Lemma decode_failure_is_skipped_witness :
  exists out,
    main Sample.world 0 ["pano_converter"; "-i"; "in"; "-o"; "out"] [] = Some out
    /\ exit_code out = EXIT_SUCCESS
    /\ In (cerr_cannot_read "in/broken.jpg") (trace out)
    /\ written_paths (trace out)
       = ["out/pano_0.jpg"; "out/pano_1.jpg"; "out/pano_2.jpg"; "out/pano_3.jpg";
          "out/pano_4.jpg"].
Proof.
  destruct (decode_failure_is_skipped Sample.arith Sample.world 0
              ["pano_converter"; "-i"; "in"; "-o"; "out"] []
              ["out"] ["pano.jpg"; "broken.jpg"] sample_started_conversion eq_refl)
    as (_ & _ & Hscenario).
  destruct (Hscenario "pano.jpg" "broken.jpg" (4096, 2048, "pano")
              (or_introl eq_refl) eq_refl (fun _ => eq_refl))
    as (out & Hmain & Hcode & Hreport & Hpaths & _).
  exists out. split; [exact Hmain|]. split; [exact Hcode|].
  split; [exact Hreport | exact Hpaths].
Defined.

Lemma one_mode_per_run_witness :
  exists out,
    main Sample.world 12 ["pano_converter"; "-i"; "in"; "-o"; "out"; "-D"] [] = Some out
    /\ exit_code out = EXIT_SUCCESS
    /\ existsb (@is_conversion_artifact Sample.arith Sample.world) (trace out) = false.
Proof.
  destruct (one_mode_per_run Sample.series_tan Sample.series_cos Sample.series_sin
              Sample.world 12 ["pano_converter"; "-i"; "in"; "-o"; "out"; "-D"] []
              ["out"] ["pano.jpg"; "broken.jpg"] sample_started_demo)
    as [Hdemo _].
  destruct (Hdemo eq_refl) as [Hsafe Hends].
  destruct (Hends ltac:(vm_compute; split; [reflexivity | discriminate])
                  (le_n 12)) as [out Hmain].
  destruct (Hsafe out Hmain) as (Hcode & Hnone & _).
  exists out. split; [exact Hmain|]. split; [exact Hcode | exact Hnone].
Defined.

(** C4, as stated: with the default five cameras and step = 10 the drawing of
    this demo run does not hold 5 x 2 x (step + 1) = 110 circles. *)
Lemma frustum_marker_count_counterexample :
  exists out drawn,
    main Sample.world 12 ["pano_converter"; "-i"; "in"; "-o"; "out"; "-D"] [] = Some out
    /\ nb_split (vars (parse_command_line Sample.world
                         ["pano_converter"; "-i"; "in"; "-o"; "out"; "-D"])) = 5
    /\ trace out = [svg_written "out/test.svg" 4096 2048 drawn]
    /\ count (@is_any_circle Sample.arith) drawn <> Z.to_nat (5 * 2 * (step + 1)).
Proof.
  destruct (demo_default_markers
              Sample.series_tan Sample.series_cos Sample.series_sin
              Sample.world 12 ["pano_converter"; "-i"; "in"; "-o"; "out"; "-D"] []
              ["out"] ["pano.jpg"; "broken.jpg"] sample_started_demo
              eq_refl eq_refl eq_refl (le_n 12))
    as (out & drawn & Hmain & _ & Htrace & _ & Hany & _).
  exists out, drawn. split; [exact Hmain|]. split; [reflexivity|].
  split; [exact Htrace|]. intros Hclaim.
  assert (H : 220%nat = Z.to_nat (5 * 2 * (step + 1)))
    by (rewrite <- Hany; exact Hclaim).
  vm_compute in H. discriminate.
Qed.

End Sample_runs.

(** * Further properties *)

(** ** How a run ends *)

Section Exits.
Variable A : Arith.
Variable W : World A.

(** A run that ends either stopped at one of the start-up checks or passed
    them all. *)
Lemma main_cases (fuel : nat) (argv : list string) (fs : FS W) (out : Outcome W) :
  main W fuel argv fs = Some out ->
  (exists line,
     out = failure (usage W argv (parse_command_line W argv)) line fs
     \/ out = failure (usage W argv (parse_command_line W argv)) line
                (snd (ensure_output_dir W fs
                        (s_directory_out (vars (parse_command_line W argv))))))
  \/ (exists fs1 files, started W argv fs fs1 files).
Proof.
  unfold main, run. intros Hmain.
  destruct (Z.ltb_spec (image_resolution (vars (parse_command_line W argv))) 0)
    as [|Hr]; [left; eexists; left; injection Hmain as <-; reflexivity|].
  destruct (Z.ltb_spec (nb_split (vars (parse_command_line W argv))) 0)
    as [|Hn]; [left; eexists; left; injection Hmain as <-; reflexivity|].
  destruct (is_empty (s_directory_in (vars (parse_command_line W argv)))) eqn:Hin;
    [left; eexists; left; injection Hmain as <-; reflexivity|].
  destruct (is_empty (s_directory_out (vars (parse_command_line W argv)))) eqn:Hout;
    [left; eexists; left; injection Hmain as <-; reflexivity|].
  cbn [orb] in Hmain.
  destruct (ensure_output_dir W fs
              (s_directory_out (vars (parse_command_line W argv))))
    as [created fs1] eqn:Hdir.
  destruct created; cbn [negb snd] in *;
    [|left; eexists; right; injection Hmain as <-; reflexivity].
  destruct (folder_wildcard W fs1
              (s_directory_in (vars (parse_command_line W argv))) "*.jpg")
    as [|filename files] eqn:Hlist;
    [left; eexists; right; injection Hmain as <-; reflexivity|].
  right. exists fs1, (filename :: files).
  constructor; try assumption. discriminate.
Qed.


(** X1.  A run that does not end with [EXIT_SUCCESS] ends with
    [EXIT_FAILURE]; after the usage text, if any, it has printed one line on
    the error stream and nothing else: no image, no focal-length file and no
    drawing were written, and the file system is as it was found or as the
    attempt to create the output folder left it. *)
Theorem failing_run_only_reports (fuel : nat) (argv : list string) (fs : FS W)
    (out : Outcome W) :
  main W fuel argv fs = Some out ->
  exit_code out <> EXIT_SUCCESS ->
  exit_code out = EXIT_FAILURE
  /\ (exists line,
        trace out = usage W argv (parse_command_line W argv) ++ [cerr line])
  /\ written_images (trace out) = []
  /\ focal_files (trace out) = []
  /\ existsb (@is_svg_written A W) (trace out) = false
  /\ (final_fs out = fs
      \/ final_fs out
         = snd (ensure_output_dir W fs
                  (s_directory_out (vars (parse_command_line W argv))))).
Proof.
  intros Hmain Hcode.
  destruct (main_cases fuel argv fs out Hmain)
    as [[line Hout] | (fs1 & files & Hstart)].
  - assert (Hshape : exit_code out = EXIT_FAILURE
                     /\ trace out
                        = usage W argv (parse_command_line W argv) ++ [cerr line])
      by (destruct Hout as [-> | ->]; split; reflexivity).
    destruct Hshape as [Hexit Htrace].
    split; [exact Hexit|]. split; [exists line; exact Htrace|].
    rewrite Htrace, written_images_app, focal_files_app, existsb_app.
    rewrite written_images_usage, focal_files_usage, no_svg_usage.
    repeat split.
    destruct Hout as [-> | ->]; [left | right]; reflexivity.
  - exfalso. apply Hcode.
    destruct (used_D (parse_command_line W argv)) eqn:HD.
    + apply (demo_run_only_draws A W fuel argv fs fs1 files out Hstart HD Hmain).
    + rewrite (conversion_run A W fuel argv fs fs1 files Hstart HD) in Hmain.
      injection Hmain as <-. reflexivity.
Qed.

(** X2.  A run that ends with [EXIT_SUCCESS] has passed every start-up
    check: neither integer option is negative, both folder options are
    given, the output folder exists or was created, and the input folder
    lists at least one panorama. *)
Theorem successful_run_passed_the_checks (fuel : nat) (argv : list string)
    (fs : FS W) (out : Outcome W) :
  main W fuel argv fs = Some out ->
  exit_code out = EXIT_SUCCESS ->
  exists fs1 files, started W argv fs fs1 files.
Proof.
  intros Hmain Hcode.
  destruct (main_cases fuel argv fs out Hmain) as [[line Hout] | Hstart];
    [|exact Hstart].
  destruct Hout as [-> | ->]; discriminate Hcode.
Qed.

(** X3.  A negative [image_resolution] is reported first, whatever else is
    wrong; a negative [nb_split] is reported next.  In both cases the run
    returns [EXIT_FAILURE] and has not touched the file system. *)
Theorem negative_options_are_reported_first (fuel : nat) (argv : list string)
    (fs : FS W) :
  (image_resolution (vars (parse_command_line W argv)) < 0 ->
   main W fuel argv fs
   = Some {| exit_code := EXIT_FAILURE;
             trace := usage W argv (parse_command_line W argv)
                      ++ [cerr "image_resolution must be larger than 0"];
             final_fs := fs |})
  /\ (0 <= image_resolution (vars (parse_command_line W argv)) ->
      nb_split (vars (parse_command_line W argv)) < 0 ->
      main W fuel argv fs
      = Some {| exit_code := EXIT_FAILURE;
                trace := usage W argv (parse_command_line W argv)
                         ++ [cerr "nb_split must be larger than 0"];
                final_fs := fs |}).
Proof.
  unfold main, run. split.
  - intros Hr.
    destruct (Z.ltb_spec (image_resolution (vars (parse_command_line W argv))) 0);
      [reflexivity | lia].
  - intros Hr Hn.
    destruct (Z.ltb_spec (image_resolution (vars (parse_command_line W argv))) 0);
      [lia|].
    destruct (Z.ltb_spec (nb_split (vars (parse_command_line W argv))) 0);
      [reflexivity | lia].
Qed.

(** X4.  The search for panoramas comes before the choice of the mode: when
    the input folder lists no [*.jpg] file the run fails, with [-D] as well
    as without, and the output folder it may have created stays. *)
Theorem no_panorama_is_fatal_in_both_modes (fuel : nat) (argv : list string)
    (fs fs1 : FS W) :
  0 <= image_resolution (vars (parse_command_line W argv)) ->
  0 <= nb_split (vars (parse_command_line W argv)) ->
  is_empty (s_directory_in (vars (parse_command_line W argv))) = false ->
  is_empty (s_directory_out (vars (parse_command_line W argv))) = false ->
  ensure_output_dir W fs (s_directory_out (vars (parse_command_line W argv)))
  = (true, fs1) ->
  folder_wildcard W fs1 (s_directory_in (vars (parse_command_line W argv))) "*.jpg"
  = [] ->
  main W fuel argv fs
  = Some {| exit_code := EXIT_FAILURE;
            trace := usage W argv (parse_command_line W argv)
                     ++ [cerr "Did not find any jpg image in the provided input_dir"];
            final_fs := fs1 |}.
Proof.
  intros Hr Hn Hin Hout Hdir Hlist. unfold main, run.
  destruct (Z.ltb_spec (image_resolution (vars (parse_command_line W argv))) 0);
    [lia|].
  destruct (Z.ltb_spec (nb_split (vars (parse_command_line W argv))) 0); [lia|].
  rewrite Hin, Hout, Hdir. cbn [orb negb]. rewrite Hlist. reflexivity.
Qed.

(** What follows the usage text in the trace of a run that ends holds no
    usage text. *)
Lemma trace_after_usage (fuel : nat) (argv : list string) (fs : FS W)
    (out : Outcome W) :
  main W fuel argv fs = Some out ->
  exists rest,
    trace out = usage W argv (parse_command_line W argv) ++ rest
    /\ existsb (@is_usage A W) rest = false.
Proof.
  intros Hmain.
  destruct (main_cases fuel argv fs out Hmain)
    as [[line Hout] | (fs1 & files & Hstart)].
  - exists [cerr line]. split; [|reflexivity].
    destruct Hout as [-> | ->]; reflexivity.
  - destruct (used_D (parse_command_line W argv)) eqn:HD.
    + destruct (demo_run_only_draws A W fuel argv fs fs1 files out Hstart HD Hmain)
        as (_ & drawn & Htrace).
      eexists. split; [exact Htrace | reflexivity].
    + rewrite (conversion_run A W fuel argv fs fs1 files Hstart HD) in Hmain.
      injection Hmain as <-. cbn [trace].
      eexists. split; [reflexivity|].
      rewrite existsb_app, conversion_spec_kinds by reflexivity. reflexivity.
Qed.

End Exits.

(** ** The panoramas of a conversion *)

Section Panoramas.
Variable A : Arith.
Variable W : World A.





Variable o : Options A.
Variable cam : Pinhole_Intrinsic A.
Variable rots : list (Mat3 A).





(** When decoding does not depend on what the loop has written, the names of
    the written files follow from the list of panoramas. *)
Lemma conversion_spec_names (fs1 : FS W) (files : list string) :
  (forall fs' f, In f files ->
     ReadImage W fs' (create_filespec W (s_directory_in o) f)
     = ReadImage W fs1 (create_filespec W (s_directory_in o) f)) ->
  forall fs : FS W,
    map fst (written_images (fst (conversion_spec W o cam rots files fs)))
    = flat_map
        (fun filename =>
           match ReadImage W fs1 (create_filespec W (s_directory_in o) filename) with
           | Some spherical_image =>
               map (fun ii => output_name W o filename (fst ii))
                   (expected_pinholes W o cam rots spherical_image)
           | None => []
           end)
        files.
Proof.
  induction files as [|filename files IH]; intros Hstable fs; simpl; [reflexivity|].
  rewrite (Hstable fs filename) by (left; reflexivity).
  assert (IH' := IH (fun fs' f Hf => Hstable fs' f (or_intror Hf))).
  destruct (ReadImage W fs1 (create_filespec W (s_directory_in o) filename))
    as [spherical_image|].
  - specialize (IH' (save_fs W o filename
                       (expected_pinholes W o cam rots spherical_image) fs)).
    destruct (conversion_spec W o cam rots files _) as [t fs'].
    cbn [fst] in *. cbn [written_images].
    rewrite written_images_app, written_images_save_events, map_app, map_map, IH'.
    reflexivity.
  - specialize (IH' fs).
    destruct (conversion_spec W o cam rots files fs) as [t fs'].
    cbn [fst] in *. exact IH'.
Qed.

End Panoramas.

Section Panorama_results.
Variable A : Arith.
Variable W : World A.


(** X7.  When decoding a panorama does not depend on what the run has
    written so far (the output does not overwrite a panorama still to be
    read), the image files written are, panorama by panorama in the order of
    the listing, the files [{output dir}/{basename}_{i}.jpg] for
    i = 0 .. nb_split-1 of each panorama that decodes. *)
Theorem written_files_follow_the_listing (fuel : nat) (argv : list string)
    (fs fs1 : FS W) (files : list string) :
  started W argv fs fs1 files ->
  used_D (parse_command_line W argv) = false ->
  (forall fs' f, In f files ->
     ReadImage W fs'
       (create_filespec W (s_directory_in (vars (parse_command_line W argv))) f)
     = ReadImage W fs1
         (create_filespec W (s_directory_in (vars (parse_command_line W argv))) f)) ->
  exists out,
    main W fuel argv fs = Some out
    /\ written_paths (trace out)
       = names_from W (vars (parse_command_line W argv)) fs1 files.
Proof.
  intros Hstart HD Hstable.
  eexists. split; [apply (conversion_run A W fuel argv fs fs1 files Hstart HD)|].
  cbn [trace]. unfold written_paths.
  rewrite !written_images_app, written_images_usage.
  cbn [app written_images]. rewrite app_nil_r.
  rewrite (conversion_spec_names A W _ _ _ fs1 files Hstable fs1).
  unfold names_from. apply flat_map_ext. intros filename.
  destruct (ReadImage W fs1 _) as [spherical_image|]; [|reflexivity].
  rewrite expected_pinholes_rig, map_map. reflexivity.
Qed.

End Panorama_results.

(** ** File names *)











(** ** The rig and the drawing *)

Section Rig.
Variable A : Arith.

(** X9.  Whatever the arithmetic, the rig holds one rotation per unit of
    [nb_split] and none when [nb_split] is not positive, and the rotation of
    index i is the rotation about Y of the angle ((M_PI * 2) / nb_split) * i,
    computed in that arithmetic. *)
Theorem rig_has_one_rotation_per_split (nb_split : Z) :
  List.length (camera_rotations A nb_split) = Z.to_nat nb_split
  /\ (nb_split <= 0 -> camera_rotations A nb_split = [])
  /\ (forall i, 0 <= i < nb_split ->
        nth_error (camera_rotations A nb_split) (Z.to_nat i)
        = Some (RotationAroundY
                  (dmul A (ddiv A (dmul A (M_PI A) (of_int A 2)) (of_int A nb_split))
                          (of_int A i)))).
Proof.
  split; [apply camera_rotations_length|]. split.
  - intros Hn. rewrite camera_rotations_map. unfold indices.
    replace (Z.to_nat nb_split) with 0%nat by lia. reflexivity.
  - intros i Hi. apply camera_rotations_nth. exact Hi.
Qed.

End Rig.

(** X10.  Read in the real numbers, the camera angles are evenly spaced by
    2.pi/nb_split and all lie in [0, 2.pi): the rig never turns a full
    circle. *)
Theorem camera_angles_stay_within_a_turn (nb_split i : Z) :
  1 <= nb_split -> 0 <= i < nb_split ->
  (0 <= camera_angle exact nb_split i < 2 * PI)%R
  /\ (camera_angle exact nb_split (i + 1) - camera_angle exact nb_split i
      = 2 * PI / IZR nb_split)%R.
Proof.
  intros Hn Hi.
  assert (Hn0 : (0 < IZR nb_split)%R) by (apply IZR_lt; lia).
  assert (Hi0 : (0 <= IZR i)%R) by (apply IZR_le; lia).
  assert (Hin : (IZR i < IZR nb_split)%R) by (apply IZR_lt; lia).
  assert (HPI := PI_RGT_0).
  unfold camera_angle, alpha; simpl. rewrite plus_IZR.
  split; [split|].
  - apply Rmult_le_pos; [|exact Hi0].
    apply Rlt_le, Rdiv_lt_0_compat; lra.
  - apply Rmult_lt_reg_r with (r := (IZR nb_split / (2 * PI))%R).
    + apply Rdiv_lt_0_compat; lra.
    + replace (PI * 2 / IZR nb_split * IZR i * (IZR nb_split / (2 * PI)))%R
        with (IZR i) by (field; lra).
      replace (2 * PI * (IZR nb_split / (2 * PI)))%R
        with (IZR nb_split) by (field; lra).
      exact Hin.
  - field. lra.
Qed.

Lemma camera_angles_stay_within_a_turn_witness :
  (0 <= camera_angle exact 5 4 < 2 * PI)%R.
Proof.
  exact (proj1 (camera_angles_stay_within_a_turn 5 4 ltac:(lia) ltac:(lia))).
Defined.

Section Demo_edges.
Variable A : Arith.
Variable W : World A.

(** X11.  With [-D] and [nb_split] = 0 there is no camera: the run ends
    whatever the resolution (0 included), and the drawing holds the two
    reference diagonals alone. *)
Theorem demo_without_cameras (fuel : nat) (argv : list string) (fs fs1 : FS W)
    (files : list string) :
  started W argv fs fs1 files ->
  used_D (parse_command_line W argv) = true ->
  nb_split (vars (parse_command_line W argv)) = 0 ->
  let path :=
    create_filespec W (s_directory_out (vars (parse_command_line W argv))) "test.svg" in
  main W fuel argv fs
  = Some {| exit_code := EXIT_SUCCESS;
            trace := usage W argv (parse_command_line W argv)
                     ++ [svg_written path 4096 2048 (reference_lines A)];
            final_fs := ofstream_write W fs1 path
                          (closeSvgFile W 4096 2048 (reference_lines A)) |}.
Proof.
  intros Hstart HD Hsplit. cbv zeta.
  rewrite (main_started A W fuel argv fs fs1 files Hstart). cbv zeta.
  rewrite HD, Hsplit. reflexivity.
Qed.

(** Every sample of a border loop passed the test [j <= image_resolution]. *)
Lemma border_samples_within (r : Z) :
  forall (fuel : nat) (j : double A) (js : list (double A)),
    border_samples A fuel r j = Some js ->
    Forall (fun j' => dleb A j' (of_int A r) = true) js.
Proof.
  induction fuel as [|fuel IH]; intros j js Hjs; simpl in Hjs; [discriminate|].
  destruct (dleb A j (of_int A r)) eqn:Hle.
  - destruct (border_samples A fuel r _) as [js'|] eqn:Hrec; [|discriminate].
    injection Hjs as <-. constructor; [exact Hle|]. eapply IH. exact Hrec.
  - injection Hjs as <-. constructor.
Qed.

Lemma border_loop_takes_sound (fuel lo hi : nat) (count : nat) :
  forall first,
    border_loop_takes A fuel lo hi first count = true ->
    forall r, first <= r < first + Z.of_nat count ->
      exists js, border_samples A fuel r (of_int A 0) = Some js
                 /\ (lo <= List.length js <= hi)%nat.
Proof.
  induction count as [|count IH]; intros first Htakes r Hr; [lia|].
  simpl in Htakes.
  destruct (border_samples A fuel first (of_int A 0)) as [js|] eqn:Hfirst;
    [|discriminate].
  apply andb_prop in Htakes. destruct Htakes as [Hlen Hrest].
  apply andb_prop in Hlen. destruct Hlen as [Hlo Hhi].
  apply Nat.leb_le in Hlo. apply Nat.leb_le in Hhi.
  destruct (Z.eq_dec r first) as [->|Hne].
  - exists js. split; [exact Hfirst | lia].
  - apply (IH (first + 1) Hrest). lia.
Qed.

End Demo_edges.

Section Demo_every_resolution.
Variables libm_tan libm_cos libm_sin : float -> float.
Let B : Arith := binary64 libm_tan libm_cos libm_sin.
Variable W : World B.

Lemma binary64_border_loop_takes_10_or_11 :
  border_loop_takes B 12 10 11 1 (Z.to_nat 65535) = true.
Proof. vm_compute. reflexivity. Qed.

(** X12.  On IEEE binary64, for every resolution from 1 to 65535 and every
    number of cameras, a demo run ends and its drawing is the two reference
    diagonals followed, camera by camera, by the markers of the samples of
    the border loops.  The loops take k = 10 or k = 11 samples (rounding
    decides which), every sample passes the test j <= image_resolution, and
    the drawing holds nb_split x 4 x k circles, half of them green and half
    yellow, and two lines. *)
Theorem demo_drawing_at_every_resolution (fuel : nat) (argv : list string)
    (fs fs1 : FS W) (files : list string) :
  started W argv fs fs1 files ->
  used_D (parse_command_line W argv) = true ->
  0 < image_resolution (vars (parse_command_line W argv)) <= 65535 ->
  (12 <= fuel)%nat ->
  let o := vars (parse_command_line W argv) in
  exists out js,
    let drawn :=
      reference_lines B
      ++ flat_map (frustum_markers W 4096 2048 (image_resolution o)
                     (main_pinhole_camera W o) js)
                  (camera_rotations B (nb_split o)) in
    main W fuel argv fs = Some out
    /\ exit_code out = EXIT_SUCCESS
    /\ trace out
       = usage W argv (parse_command_line W argv)
         ++ [svg_written (create_filespec W (s_directory_out o) "test.svg")
               4096 2048 drawn]
    /\ (List.length js = 10%nat \/ List.length js = 11%nat)
    /\ Forall (fun j => dleb B j (of_int B (image_resolution o)) = true) js
    /\ count (@is_any_circle B) drawn
       = (Z.to_nat (nb_split o) * (4 * List.length js))%nat
    /\ count (@is_circle B "green") drawn
       = (Z.to_nat (nb_split o) * (2 * List.length js))%nat
    /\ count (@is_circle B "yellow") drawn
       = (Z.to_nat (nb_split o) * (2 * List.length js))%nat
    /\ count (@is_line B) drawn = 2%nat.
Proof.
  intros Hstart HD Hr Hfuel. cbv zeta.
  destruct (border_loop_takes_sound B 12 10 11 (Z.to_nat 65535) 1
              binary64_border_loop_takes_10_or_11
              (image_resolution (vars (parse_command_line W argv))) ltac:(lia))
    as (js & Hjs12 & Hlen).
  assert (Hjs : border_samples B fuel
                  (image_resolution (vars (parse_command_line W argv)))
                  (of_int B 0) = Some js).
  { replace fuel with (12 + (fuel - 12))%nat by lia.
    apply border_samples_fuel. exact Hjs12. }
  eexists. exists js.
  split; [apply (demo_run B W fuel argv fs fs1 files js Hstart HD Hjs)|].
  cbn [exit_code trace].
  split; [reflexivity|]. split; [reflexivity|]. split; [lia|].
  split; [apply (border_samples_within B _ fuel _ js Hjs)|].
  rewrite <- (camera_rotations_length B
                (nb_split (vars (parse_command_line W argv)))).
  apply (frustum_marker_counts libm_tan libm_cos libm_sin W).
Qed.

End Demo_every_resolution.

Section Zero_resolution.
Variables libm_tan libm_cos libm_sin : float -> float.
Let B : Arith := binary64 libm_tan libm_cos libm_sin.
Variable W : World B.

Lemma draw_frustums_stuck (fuel : nat) (pano_width pano_height r : Z)
    (cam : Pinhole_Intrinsic B) (rot : Mat3 B) (rots : list (Mat3 B))
    (svgStream : list (svgPrimitive B)) :
  border_samples B fuel r (of_int B 0) = None ->
  draw_frustums W fuel pano_width pano_height r cam (rot :: rots) svgStream = None.
Proof.
  intros Hnone. cbn [draw_frustums].
  rewrite border_loop_samples, Hnone. reflexivity.
Qed.

(** X13.  On IEEE binary64, with [-D] and [image_resolution] = 0 (which the
    start-up checks let through) the step of the border loops is 0: the run
    never ends as soon as there is one camera, and ends only when
    [nb_split] = 0. *)
Theorem demo_at_zero_resolution (argv : list string) (fs fs1 : FS W)
    (files : list string) :
  started W argv fs fs1 files ->
  used_D (parse_command_line W argv) = true ->
  image_resolution (vars (parse_command_line W argv)) = 0 ->
  (1 <= nb_split (vars (parse_command_line W argv)) ->
   forall fuel, main W fuel argv fs = None)
  /\ (nb_split (vars (parse_command_line W argv)) = 0 ->
      forall fuel, exists out,
        main W fuel argv fs = Some out /\ exit_code out = EXIT_SUCCESS).
Proof.
  intros Hstart HD Hres. split.
  - intros Hsplit fuel.
    rewrite (main_started B W fuel argv fs fs1 files Hstart). cbv zeta.
    rewrite HD. unfold demo_mode.
    rewrite camera_rotations_map. unfold indices.
    destruct (Z.to_nat (nb_split (vars (parse_command_line W argv)))) as [|n] eqn:Hn;
      [lia|].
    cbn [zrange map].
    rewrite draw_frustums_stuck; [reflexivity|].
    rewrite Hres. apply binary64_border_loop_at_zero.
  - intros Hsplit fuel.
    rewrite (main_started B W fuel argv fs fs1 files Hstart). cbv zeta.
    rewrite HD, Hsplit. eexists. split; reflexivity.
Qed.

End Zero_resolution.

(** ** Closed runs for the further properties *)

Section Further_sample_runs.
Local Open Scope string_scope.


Lemma sample_started_demo_no_camera :
  started Sample.world ["pano_converter"; "-i"; "in"; "-o"; "out"; "-n"; "0"; "-D"] []
    ["out"] ["pano.jpg"; "broken.jpg"].
Proof. constructor; vm_compute; try reflexivity; discriminate. Qed.

Lemma sample_started_demo_7 :
  started Sample.world ["pano_converter"; "-i"; "in"; "-o"; "out"; "-r"; "7"; "-D"] []
    ["out"] ["pano.jpg"; "broken.jpg"].
Proof. constructor; vm_compute; try reflexivity; discriminate. Qed.

Lemma sample_started_demo_0 :
  started Sample.world ["pano_converter"; "-i"; "in"; "-o"; "out"; "-r"; "0"; "-D"] []
    ["out"] ["pano.jpg"; "broken.jpg"].
Proof. constructor; vm_compute; try reflexivity; discriminate. Qed.

Lemma failing_run_only_reports_witness :
  main Sample.world 0 ["pano_converter"; "-i"; "in"] []
  = Some (@failure Sample.arith Sample.world []
            "input_dir and output_dir option must not be empty" [])
  /\ written_images
       (trace (@failure Sample.arith Sample.world []
                 "input_dir and output_dir option must not be empty" []))
     = [].
Proof.
  split; [reflexivity|].
  destruct (failing_run_only_reports Sample.arith Sample.world 0
              ["pano_converter"; "-i"; "in"] []
              (@failure Sample.arith Sample.world []
                 "input_dir and output_dir option must not be empty" [])
              eq_refl ltac:(discriminate))
    as (_ & _ & Hnone & _).
  exact Hnone.
Defined.

Lemma successful_run_passed_the_checks_witness :
  exists fs1 files,
    started Sample.world ["pano_converter"; "-i"; "in"; "-o"; "out"] [] fs1 files.
Proof.
  exact (successful_run_passed_the_checks Sample.arith Sample.world 0
           ["pano_converter"; "-i"; "in"; "-o"; "out"] [] _
           (conversion_run Sample.arith Sample.world 0
              ["pano_converter"; "-i"; "in"; "-o"; "out"] []
              ["out"] ["pano.jpg"; "broken.jpg"] sample_started_conversion eq_refl)
           eq_refl).
Defined.

Lemma negative_options_are_reported_first_witness :
  exists out,
    main Sample.world 0 ["pano_converter"; "-r"; "-5"; "-n"; "-1"] [] = Some out
    /\ trace out = [cerr "image_resolution must be larger than 0"].
Proof.
  eexists. split.
  - apply (proj1 (negative_options_are_reported_first Sample.arith Sample.world 0
                    ["pano_converter"; "-r"; "-5"; "-n"; "-1"] [])).
    vm_compute. reflexivity.
  - reflexivity.
Defined.

Lemma no_panorama_is_fatal_in_both_modes_witness :
  main Sample.world 0 ["pano_converter"; "-i"; "empty"; "-o"; "out"; "-D"] []
  = Some (@Build_Outcome Sample.arith Sample.world EXIT_FAILURE
            [cerr "Did not find any jpg image in the provided input_dir"]
            ["out"]).
Proof.
  apply (no_panorama_is_fatal_in_both_modes Sample.arith Sample.world 0
           ["pano_converter"; "-i"; "empty"; "-o"; "out"; "-D"] [] ["out"]);
    vm_compute; try reflexivity; discriminate.
Defined.


Lemma written_files_follow_the_listing_witness :
  exists out,
    main Sample.world 0 ["pano_converter"; "-i"; "in"; "-o"; "out"; "-n"; "2"] []
    = Some out
    /\ written_paths (trace out) = ["out/pano_0.jpg"; "out/pano_1.jpg"].
Proof.
  assert (Hstart : started Sample.world
                     ["pano_converter"; "-i"; "in"; "-o"; "out"; "-n"; "2"] []
                     ["out"] ["pano.jpg"; "broken.jpg"])
    by (constructor; vm_compute; try reflexivity; discriminate).
  destruct (written_files_follow_the_listing Sample.arith Sample.world 0
              ["pano_converter"; "-i"; "in"; "-o"; "out"; "-n"; "2"] []
              ["out"] ["pano.jpg"; "broken.jpg"] Hstart eq_refl
              (fun _ _ _ => eq_refl))
    as (out & Hmain & Hpaths).
  exists out. split; [exact Hmain | exact Hpaths].
Defined.

Lemma demo_without_cameras_witness :
  exists out,
    main Sample.world 0
      ["pano_converter"; "-i"; "in"; "-o"; "out"; "-n"; "0"; "-D"] [] = Some out
    /\ trace out
       = [svg_written "out/test.svg" 4096 2048 (reference_lines Sample.arith)].
Proof.
  eexists. split.
  - apply (demo_without_cameras Sample.arith Sample.world 0
             ["pano_converter"; "-i"; "in"; "-o"; "out"; "-n"; "0"; "-D"] []
             ["out"] ["pano.jpg"; "broken.jpg"]
             sample_started_demo_no_camera eq_refl eq_refl).
  - reflexivity.
Defined.

Lemma demo_drawing_at_every_resolution_witness :
  exists out,
    main Sample.world 12
      ["pano_converter"; "-i"; "in"; "-o"; "out"; "-r"; "7"; "-D"] [] = Some out
    /\ exit_code out = EXIT_SUCCESS.
Proof.
  destruct (demo_drawing_at_every_resolution
              Sample.series_tan Sample.series_cos Sample.series_sin
              Sample.world 12
              ["pano_converter"; "-i"; "in"; "-o"; "out"; "-r"; "7"; "-D"] []
              ["out"] ["pano.jpg"; "broken.jpg"] sample_started_demo_7 eq_refl
              ltac:(vm_compute; split; [reflexivity | discriminate]) (le_n 12))
    as (out & js & Hmain & Hcode & _).
  exists out. split; [exact Hmain | exact Hcode].
Defined.

Lemma demo_at_zero_resolution_witness :
  main Sample.world 1000
    ["pano_converter"; "-i"; "in"; "-o"; "out"; "-r"; "0"; "-D"] [] = None.
Proof.
  apply (proj1 (demo_at_zero_resolution
                  Sample.series_tan Sample.series_cos Sample.series_sin
                  Sample.world
                  ["pano_converter"; "-i"; "in"; "-o"; "out"; "-r"; "0"; "-D"] []
                  ["out"] ["pano.jpg"; "broken.jpg"] sample_started_demo_0
                  eq_refl eq_refl)).
  vm_compute. discriminate.
Defined.

End Further_sample_runs.

(** * The outcome of each mode *)

(** ** The drawing of a demo run *)

Section Border_counter.
Variable A : Arith.

(** The loop of line 143 whose counter passes the test [j <= r] [n] times and
    then fails it takes the [n] values j0, j0 + s, j0 + s + s, ... *)
Lemma border_samples_iterates (r : Z) (n : nat) :
  forall (fuel : nat) (j0 : double A),
    (n < fuel)%nat ->
    (forall k, (k < n)%nat ->
       dleb A (Nat.iter k (fun j => dadd A j (ddiv A (of_int A r) (of_int A step))) j0)
            (of_int A r) = true) ->
    dleb A (Nat.iter n (fun j => dadd A j (ddiv A (of_int A r) (of_int A step))) j0)
         (of_int A r) = false ->
    border_samples A fuel r j0
    = Some (map (fun k => Nat.iter k
                            (fun j => dadd A j (ddiv A (of_int A r) (of_int A step))) j0)
                (seq 0 n)).
Proof.
  induction n as [|n IH]; intros fuel j0 Hfuel Hpass Hfail.
  - destruct fuel as [|fuel]; [lia|]. simpl in *. now rewrite Hfail.
  - destruct fuel as [|fuel]; [lia|].
    assert (Hshift : forall k,
              Nat.iter k (fun j => dadd A j (ddiv A (of_int A r) (of_int A step)))
                (dadd A j0 (ddiv A (of_int A r) (of_int A step)))
              = Nat.iter (S k)
                  (fun j => dadd A j (ddiv A (of_int A r) (of_int A step))) j0).
    { intros k.
      exact (eq_sym (Nat.iter_succ_r k (double A)
                       (fun j => dadd A j (ddiv A (of_int A r) (of_int A step))) j0)). }
    cbn [border_samples].
    assert (H0 : dleb A j0 (of_int A r) = true) by (apply (Hpass 0%nat); lia).
    rewrite H0.
    rewrite (IH fuel (dadd A j0 (ddiv A (of_int A r) (of_int A step)))).
    + cbn [option_map seq map]. do 2 f_equal.
      rewrite <- seq_shift, map_map. apply map_ext. intros k. apply Hshift.
    + lia.
    + intros k Hk. rewrite Hshift. apply Hpass. lia.
    + rewrite Hshift. exact Hfail.
Qed.

End Border_counter.

Section Demo_all_samples.
Variables libm_tan libm_cos libm_sin : float -> float.
Let B : Arith := binary64 libm_tan libm_cos libm_sin.
Variable W : World B.

(** C4 (amended).  In demo mode with nb_split = 5 and step = 10, at every
    resolution at which the counter of the border loops takes step + 1
    values (its values 0, s, s + s, ... for s = image_resolution / step pass
    the test j <= image_resolution step + 1 times and the next one fails it,
    as at the default 1024), the drawing is: the two reference diagonals,
    then for each of the five cameras in turn the step + 1 samples of the
    left and right borders, two green circles per sample, and then the
    step + 1 samples of the top and bottom borders, two yellow circles per
    sample; 5 x 4 x (step + 1) = 220 circles in all, 110 of each colour. *)
Theorem frustum_markers_when_all_samples_are_taken (fuel : nat)
    (argv : list string) (fs fs1 : FS W) (files : list string) :
  let o := vars (parse_command_line W argv) in
  let r := image_resolution o in
  let sample k :=
    Nat.iter k (fun j => dadd B j (ddiv B (of_int B r) (of_int B step))) (of_int B 0) in
  started W argv fs fs1 files ->
  used_D (parse_command_line W argv) = true ->
  nb_split o = 5 ->
  (forall k, (k <= Z.to_nat step)%nat -> dleb B (sample k) (of_int B r) = true) ->
  dleb B (sample (S (Z.to_nat step))) (of_int B r) = false ->
  (S (Z.to_nat step) < fuel)%nat ->
  let project i x :=
    spherical_project W 4096 2048
      (mat_vec
         (RotationAroundY
            (dmul B (ddiv B (dmul B (M_PI B) (of_int B 2)) (of_int B 5)) (of_int B i)))
         (pinhole_bearing W (ComputeCubicCameraIntrinsics W r) x)) in
  let circle col (p : Vec2 B) :=
    Circle (fst p) (snd p) (of_int B 4) (svgStyle_fill col) in
  let samples := map sample (seq 0 (S (Z.to_nat step))) in
  let drawn :=
    [ Line (of_int B 0) (of_int B 0) (of_int B 4096) (of_int B 2048) svgStyle_default;
      Line (of_int B 4096) (of_int B 0) (of_int B 0) (of_int B 2048) svgStyle_default ]
    ++ flat_map
         (fun i =>
            flat_map (fun j => [ circle "green"%string (project i (of_int B 0, j));
                                 circle "green"%string (project i (of_int B r, j)) ])
                     samples
            ++ flat_map (fun j => [ circle "yellow"%string (project i (j, of_int B 0));
                                    circle "yellow"%string (project i (j, of_int B r)) ])
                        samples)
         [0; 1; 2; 3; 4] in
  exists out,
    main W fuel argv fs = Some out
    /\ exit_code out = EXIT_SUCCESS
    /\ trace out
       = usage W argv (parse_command_line W argv)
         ++ [svg_written (create_filespec W (s_directory_out o) "test.svg")
               4096 2048 drawn]
    /\ count (@is_line B) drawn = 2%nat
    /\ count (@is_any_circle B) drawn = Z.to_nat (5 * 4 * (step + 1))
    /\ count (@is_circle B "green") drawn = Z.to_nat (5 * 2 * (step + 1))
    /\ count (@is_circle B "yellow") drawn = Z.to_nat (5 * 2 * (step + 1)).
Proof.
  intros o r sample Hstart HD Hsplit Hpass Hfail Hfuel project circle samples drawn.
  assert (Hjs : border_samples B fuel r (of_int B 0) = Some samples).
  { apply (border_samples_iterates B r (S (Z.to_nat step)) fuel (of_int B 0) Hfuel).
    - intros k Hk. apply Hpass. lia.
    - exact Hfail. }
  pose proof (demo_run B W fuel argv fs fs1 files samples Hstart HD Hjs) as Hrun.
  cbv zeta in Hrun. fold o in Hrun. rewrite Hsplit in Hrun.
  assert (Hdrawn :
    reference_lines B
    ++ flat_map (frustum_markers W 4096 2048 (image_resolution o)
                   (main_pinhole_camera W o) samples)
                (camera_rotations B 5)
    = drawn) by reflexivity.
  rewrite Hdrawn in Hrun.
  exists {| exit_code := EXIT_SUCCESS;
            trace := usage W argv (parse_command_line W argv)
                     ++ [svg_written (create_filespec W (s_directory_out o) "test.svg")
                           4096 2048 drawn];
            final_fs := ofstream_write W fs1
                          (create_filespec W (s_directory_out o) "test.svg")
                          (closeSvgFile W 4096 2048 drawn) |}.
  split; [exact Hrun|]. split; [reflexivity|]. split; [reflexivity|].
  rewrite <- Hdrawn.
  destruct (frustum_marker_counts libm_tan libm_cos libm_sin W
              (image_resolution o) (main_pinhole_camera W o) samples
              (camera_rotations B 5))
    as (Hany & Hgreen & Hyellow & Hline).
  split; [exact Hline|]. split; [exact Hany|]. split; [exact Hgreen | exact Hyellow].
Qed.

End Demo_all_samples.

(** ** The files of a conversion run *)

Lemma zrange_seq (count : nat) :
  forall first : nat, zrange (Z.of_nat first) count = map Z.of_nat (seq first count).
Proof.
  induction count as [|count IH]; intros first; simpl; [reflexivity|].
  f_equal. rewrite <- IH. f_equal. lia.
Qed.

Lemma indices_seq (n : Z) : indices n = map Z.of_nat (seq 0 (Z.to_nat n)).
Proof. unfold indices. exact (zrange_seq (Z.to_nat n) 0). Qed.

Lemma fold_left_map (X Y S : Type) (g : X -> Y) (f : S -> Y -> S) (l : list X) :
  forall s, fold_left f (map g l) s = fold_left (fun s x => f s (g x)) l s.
Proof. induction l as [|x l IH]; intros s; simpl; auto. Qed.

Lemma last_default (X : Type) (l : list X) (d d' : X) :
  l <> [] -> last l d = last l d'.
Proof.
  induction l as [|x l IH]; intros Hl; [congruence|].
  destruct l as [|y l]; [reflexivity|].
  change (last (y :: l) d = last (y :: l) d'). apply IH. discriminate.
Qed.

Section Conversion_states.
Variable A : Arith.
Variable W : World A.
Variable o : Options A.
Variable cam : Pinhole_Intrinsic A.
Variable rots : list (Mat3 A).

(** The loop, panorama by panorama: the state in which each one is read, the
    images it gives and the state the writing of them leads to. *)
Lemma conversion_spec_states
    (outputs : string -> FS W -> list (string * Image W)) :
  (forall f s,
     outputs f s
     = match ReadImage W s (create_filespec W (s_directory_in o) f) with
       | Some img => map (fun ii => (output_name W o f (fst ii), snd ii))
                         (expected_pinholes W o cam rots img)
       | None => []
       end) ->
  forall (files : list string) (fs : FS W),
  exists states : list (FS W),
    List.length states = S (List.length files)
    /\ nth_error states 0 = Some fs
    /\ (forall k f s,
          nth_error files k = Some f ->
          nth_error states k = Some s ->
          nth_error states (S k)
          = Some (fold_left (fun s ni => WriteImage W s (fst ni) (snd ni))
                            (outputs f s) s))
    /\ written_images (fst (conversion_spec W o cam rots files fs))
       = flat_map (fun fs => outputs (fst fs) (snd fs)) (combine files states)
    /\ snd (conversion_spec W o cam rots files fs) = last states fs.
Proof.
  intros Houtputs.
  induction files as [|f files IH]; intros fs.
  - exists [fs]. repeat split; try reflexivity.
    intros k f s Hf. destruct k; discriminate Hf.
  - set (s' := fold_left (fun s ni => WriteImage W s (fst ni) (snd ni))
                         (outputs f fs) fs).
    destruct (IH s') as (states & Hlen & Hhd & Hstep & Himgs & Hlast).
    assert (Hne : states <> []) by (destruct states; [discriminate Hlen | discriminate]).
    exists (fs :: states).
    split; [simpl; now rewrite Hlen|]. split; [reflexivity|]. split; [|split].
    + intros k g s Hg Hs. destruct k as [|k].
      * simpl in Hg, Hs. injection Hg as <-. injection Hs as <-.
        cbn [nth_error]. exact Hhd.
      * cbn [nth_error] in *. exact (Hstep k g s Hg Hs).
    + cbn [conversion_spec combine flat_map fst snd].
      subst s'. rewrite (Houtputs f fs) in *.
      destruct (ReadImage W fs (create_filespec W (s_directory_in o) f))
        as [spherical_image|].
      * assert (Hsave :
          save_fs W o f (expected_pinholes W o cam rots spherical_image) fs
          = fold_left (fun s ni => WriteImage W s (fst ni) (snd ni))
              (map (fun ii => (output_name W o f (fst ii), snd ii))
                   (expected_pinholes W o cam rots spherical_image)) fs)
          by (unfold save_fs; now rewrite fold_left_map).
        rewrite Hsave.
        destruct (conversion_spec W o cam rots files _) as [t fs'].
        cbn [fst] in *. cbn [written_images].
        now rewrite written_images_app, written_images_save_events, Himgs.
      * cbn [fold_left] in *.
        destruct (conversion_spec W o cam rots files fs) as [t fs'].
        cbn [fst] in *. cbn [written_images app]. exact Himgs.
    + assert (Hcons : last (fs :: states) fs = last states s')
        by (destruct states as [|s0 states]; [congruence|];
            apply (last_default _ (s0 :: states)); discriminate).
      rewrite Hcons, <- Hlast.
      cbn [conversion_spec]. subst s'. rewrite (Houtputs f fs).
      destruct (ReadImage W fs (create_filespec W (s_directory_in o) f))
        as [spherical_image|].
      * assert (Hsave :
          save_fs W o f (expected_pinholes W o cam rots spherical_image) fs
          = fold_left (fun s ni => WriteImage W s (fst ni) (snd ni))
              (map (fun ii => (output_name W o f (fst ii), snd ii))
                   (expected_pinholes W o cam rots spherical_image)) fs)
          by (unfold save_fs; now rewrite fold_left_map).
        rewrite Hsave.
        match goal with
        | |- context [conversion_spec W o cam rots files ?s] =>
            destruct (conversion_spec W o cam rots files s) as [t fs']
        end. reflexivity.
      * cbn [fold_left].
        destruct (conversion_spec W o cam rots files fs) as [t fs']. reflexivity.
Qed.

End Conversion_states.

Section Conversion_outcome.
Variable A : Arith.
Variable W : World A.

(** C6.  A conversion run goes through the listed panoramas in order, each
    read in the state the writing for the previous ones has led to
    ([states]).  The image files it writes are, panorama by panorama, those
    of every panorama that decodes: one per camera index i = 0 .. nb_split-1,
    named {output dir}/{basename}_{i}.jpg, holding the panorama resampled
    through the pinhole camera and rotation i into a fresh image of
    image_resolution x image_resolution pixels filled with [BLACK]; a
    panorama that does not decode gives none.  The run then writes
    [focal.txt] once, with the decimal text of the focal length computed at
    line 113, and returns [EXIT_SUCCESS]. *)
Theorem conversion_writes_one_image_per_camera (fuel : nat) (argv : list string)
    (fs fs1 : FS W) (files : list string) :
  started W argv fs fs1 files ->
  used_D (parse_command_line W argv) = false ->
  let o := vars (parse_command_line W argv) in
  let r := image_resolution o in
  let rotation i :=
    RotationAroundY
      (dmul A (ddiv A (dmul A (M_PI A) (of_int A 2)) (of_int A (nb_split o)))
              (of_int A i)) in
  let name f i :=
    (s_directory_out o ++ "/" ++ basename_part W f ++ "_"
     ++ NilZero.string_of_int (Z.to_int i) ++ ".jpg")%string in
  let pinholes f spherical_image :=
    map (fun i =>
           (name f i,
            sample_pinhole W spherical_image (ComputeCubicCameraIntrinsics W r)
              (rotation i) (Image_new W r r (BLACK W))))
        (map Z.of_nat (seq 0 (Z.to_nat (nb_split o)))) in
  let outputs f s :=
    match ReadImage W s (create_filespec W (s_directory_in o) f) with
    | Some spherical_image => pinholes f spherical_image
    | None => []
    end in
  let write_all (l : list (string * Image W)) s :=
    fold_left (fun s ni => WriteImage W s (fst ni) (snd ni)) l s in
  let focal_value := FocalFromPinholeHeight r (D2R (fov o)) in
  let focal_path := create_filespec W (s_directory_out o) "focal.txt" in
  exists (out : Outcome W) (states : list (FS W)),
    main W fuel argv fs = Some out
    /\ exit_code out = EXIT_SUCCESS
    /\ List.length states = S (List.length files)
    /\ nth_error states 0 = Some fs1
    /\ (forall k f s,
          nth_error files k = Some f ->
          nth_error states k = Some s ->
          nth_error states (S k) = Some (write_all (outputs f s) s))
    /\ written_images (trace out)
       = flat_map (fun fs => outputs (fst fs) (snd fs)) (combine files states)
    /\ focal_files (trace out) = [(focal_path, focal_value)]
    /\ final_fs out
       = ofstream_write W (last states fs1) focal_path (print_double W focal_value).
Proof.
  intros Hstart HD o r rotation name pinholes outputs write_all focal_value focal_path.
  assert (Houtputs : forall f s,
    outputs f s
    = match ReadImage W s (create_filespec W (s_directory_in o) f) with
      | Some img =>
          map (fun ii => (output_name W o f (fst ii), snd ii))
              (expected_pinholes W o (main_pinhole_camera W o)
                 (camera_rotations A (nb_split o)) img)
      | None => []
      end).
  { intros f s. unfold outputs.
    destruct (ReadImage W s (create_filespec W (s_directory_in o) f)) as [img|];
      [|reflexivity].
    rewrite expected_pinholes_rig, indices_seq, map_map.
    unfold pinholes. reflexivity. }
  destruct (conversion_spec_states A W o (main_pinhole_camera W o)
              (camera_rotations A (nb_split o)) outputs Houtputs files fs1)
    as (states & Hlen & Hhd & Hstep & Himgs & Hlast).
  eexists. exists states.
  split; [apply (conversion_run A W fuel argv fs fs1 files Hstart HD)|].
  cbn [exit_code trace final_fs]. fold o.
  split; [reflexivity|]. split; [exact Hlen|]. split; [exact Hhd|].
  split; [exact Hstep|]. split; [|split].
  - rewrite !written_images_app, written_images_usage, Himgs.
    cbn [written_images app]. now rewrite app_nil_r.
  - rewrite !focal_files_app, focal_files_usage, focal_files_conversion_spec.
    reflexivity.
  - rewrite Hlast. reflexivity.
Qed.

End Conversion_outcome.

(** ** The field of view and the usage text *)

Section Field_of_view_and_usage.
Variable A : Arith.
Variable W : World A.

Lemma without_focal_of_without_fov :
  forall t1 t2 : list (event W),
    existsb (@is_usage A W) t1 = false ->
    existsb (@is_usage A W) t2 = false ->
    map (@without_fov A W) t1 = map (@without_fov A W) t2 ->
    map (@without_focal A W) t1 = map (@without_focal A W) t2.
Proof.
  induction t1 as [|e1 t1 IH]; intros [|e2 t2] H1 H2 Heq; simpl in *;
    try discriminate; [reflexivity|].
  injection Heq as He Ht.
  apply orb_false_elim in H1. destruct H1 as [He1 Ht1].
  apply orb_false_elim in H2. destruct H2 as [He2 Ht2].
  rewrite (IH t2 Ht1 Ht2 Ht). f_equal.
  destruct e1, e2; simpl in *; try discriminate; try exact He.
Qed.

Lemma no_usage_without_throw (fuel : nat) (argv : list string) (fs : FS W)
    (out : Outcome W) :
  threw (parse_command_line W argv) = false ->
  main W fuel argv fs = Some out ->
  existsb (@is_usage A W) (trace out) = false.
Proof.
  intros Hthrew Hmain.
  destruct (trace_after_usage A W fuel argv fs out Hmain) as (rest & Htrace & Hrest).
  unfold usage in Htrace. rewrite Hthrew in Htrace. rewrite Htrace. exact Hrest.
Qed.

(** C8 (amended).  Two runs whose command lines differ in [fov] only write
    the same pinhole images under the same names and end with the same exit
    code.  [fov] reaches the value in the focal-length file and the value the
    usage text shows, and nothing else: with these two blanked the traces are
    the same, and when the command-line reader did not throw (no usage text)
    blanking the value in the focal-length file is enough. *)
Theorem fov_reaches_the_focal_file_and_the_usage_text (fuel : nat)
    (argv1 argv2 : list string) (f : double A) (fs : FS W) :
  hd EmptyString argv2 = hd EmptyString argv1 ->
  parse_command_line W argv2 = with_fov_read (parse_command_line W argv1) f ->
  option_map (fun out => written_images (trace out)) (main W fuel argv2 fs)
  = option_map (fun out => written_images (trace out)) (main W fuel argv1 fs)
  /\ option_map (@exit_code A W) (main W fuel argv2 fs)
     = option_map (@exit_code A W) (main W fuel argv1 fs)
  /\ option_map (fun out => map (@without_fov A W) (trace out)) (main W fuel argv2 fs)
     = option_map (fun out => map (@without_fov A W) (trace out)) (main W fuel argv1 fs)
  /\ (threw (parse_command_line W argv1) = false ->
      option_map (fun out => map (@without_focal A W) (trace out)) (main W fuel argv2 fs)
      = option_map (fun out => map (@without_focal A W) (trace out))
          (main W fuel argv1 fs)).
Proof.
  intros Hprog Hparse.
  destruct (fov_reaches_only_the_focal_file A W fuel argv1 argv2 f fs Hprog Hparse)
    as (Himgs & Hcode & Htrace).
  split; [exact Himgs|]. split; [exact Hcode|]. split; [exact Htrace|].
  intros Hthrew.
  assert (Hthrew2 : threw (parse_command_line W argv2) = false)
    by (rewrite Hparse; exact Hthrew).
  destruct (main W fuel argv2 fs) as [out2|] eqn:Hmain2,
           (main W fuel argv1 fs) as [out1|] eqn:Hmain1;
    simpl in *; try discriminate; [|reflexivity].
  injection Htrace as Htrace. f_equal.
  apply without_focal_of_without_fov.
  - exact (no_usage_without_throw fuel argv2 fs out2 Hthrew2 Hmain2).
  - exact (no_usage_without_throw fuel argv1 fs out1 Hthrew Hmain1).
  - exact Htrace.
Qed.

End Field_of_view_and_usage.

Section Usage_and_conversion.
Variable A : Arith.
Variable W : World A.


End Usage_and_conversion.

(** ** Closed runs for the outcomes *)

Section Outcome_sample_runs.
Local Open Scope string_scope.

Lemma sample_counter_passes :
  forall k, (k <= Z.to_nat step)%nat ->
    dleb Sample.arith
      (Nat.iter k
         (fun j => dadd Sample.arith j
                     (ddiv Sample.arith (of_int Sample.arith 1024)
                        (of_int Sample.arith step)))
         (of_int Sample.arith 0))
      (of_int Sample.arith 1024) = true.
Proof.
  intros k Hk.
  do 11 (destruct k as [|k]; [vm_compute; reflexivity|]).
  exfalso. vm_compute in Hk. lia.
Qed.

Lemma frustum_markers_when_all_samples_are_taken_witness :
  exists out drawn,
    main Sample.world 12 ["pano_converter"; "-i"; "in"; "-o"; "out"; "-D"] [] = Some out
    /\ exit_code out = EXIT_SUCCESS
    /\ trace out = [svg_written "out/test.svg" 4096 2048 drawn]
    /\ count (@is_line Sample.arith) drawn = 2%nat
    /\ count (@is_any_circle Sample.arith) drawn = 220%nat.
Proof.
  destruct (frustum_markers_when_all_samples_are_taken
              Sample.series_tan Sample.series_cos Sample.series_sin
              Sample.world 12 ["pano_converter"; "-i"; "in"; "-o"; "out"; "-D"] []
              ["out"] ["pano.jpg"; "broken.jpg"] sample_started_demo
              eq_refl eq_refl sample_counter_passes eq_refl (le_n 12))
    as (out & Hmain & Hcode & Htrace & Hline & Hany & _).
  exists out. eexists. split; [exact Hmain|]. split; [exact Hcode|].
  split; [exact Htrace|]. split; [exact Hline | exact Hany].
Defined.

Lemma conversion_writes_one_image_per_camera_witness :
  exists out,
    main Sample.world 0 ["pano_converter"; "-i"; "in"; "-o"; "out"; "-n"; "2"; "-r"; "8"] []
    = Some out
    /\ exit_code out = EXIT_SUCCESS
    /\ written_images (trace out)
       = [("out/pano_0.jpg", (8, 8, "pano")); ("out/pano_1.jpg", (8, 8, "pano"))]
    /\ map fst (focal_files (trace out)) = ["out/focal.txt"].
Proof.
  assert (Hstart : started Sample.world
            ["pano_converter"; "-i"; "in"; "-o"; "out"; "-n"; "2"; "-r"; "8"] []
            ["out"] ["pano.jpg"; "broken.jpg"])
    by (constructor; vm_compute; try reflexivity; discriminate).
  destruct (conversion_writes_one_image_per_camera Sample.arith Sample.world 0
              ["pano_converter"; "-i"; "in"; "-o"; "out"; "-n"; "2"; "-r"; "8"] []
              ["out"] ["pano.jpg"; "broken.jpg"] Hstart eq_refl)
    as (out & states & Hmain & Hcode & Hlen & _ & _ & Himgs & Hfocal & _).
  exists out. split; [exact Hmain|]. split; [exact Hcode|]. split.
  - rewrite Himgs.
    destruct states as [|s0 [|s1 [|s2 [|s3 states]]]]; try discriminate Hlen.
    reflexivity.
  - rewrite Hfocal. reflexivity.
Defined.

Lemma sample_started_fov_60_throw :
  started Sample.world
    ["pano_converter"; "-i"; "in"; "-o"; "out"; "-f"; "60"; "-x"; "1"] []
    ["out"] ["pano.jpg"; "broken.jpg"].
Proof. constructor; vm_compute; try reflexivity; discriminate. Qed.

Lemma sample_started_fov_90_throw :
  started Sample.world
    ["pano_converter"; "-i"; "in"; "-o"; "out"; "-f"; "90"; "-x"; "1"] []
    ["out"] ["pano.jpg"; "broken.jpg"].
Proof. constructor; vm_compute; try reflexivity; discriminate. Qed.

(** C8, as stated: of two conversion runs that differ in [fov] only, and whose
    command-line reader threw after reading it, the error streams differ. *)
Lemma fov_shows_in_the_usage_text :
  parse_command_line Sample.world
    ["pano_converter"; "-i"; "in"; "-o"; "out"; "-f"; "90"; "-x"; "1"]
  = with_fov_read
      (parse_command_line Sample.world
         ["pano_converter"; "-i"; "in"; "-o"; "out"; "-f"; "60"; "-x"; "1"])
      90%float
  /\ exists out60 out90,
    main Sample.world 0
      ["pano_converter"; "-i"; "in"; "-o"; "out"; "-f"; "60"; "-x"; "1"] [] = Some out60
    /\ main Sample.world 0
         ["pano_converter"; "-i"; "in"; "-o"; "out"; "-f"; "90"; "-x"; "1"] []
       = Some out90
    /\ hd_error (trace out60)
       = Some (@cerr_usage Sample.arith Sample.world "pano_converter" 1024 5 60%float)
    /\ hd_error (trace out90)
       = Some (@cerr_usage Sample.arith Sample.world "pano_converter" 1024 5 90%float)
    /\ map (@without_focal Sample.arith Sample.world) (trace out60)
       <> map (@without_focal Sample.arith Sample.world) (trace out90).
Proof.
  split; [reflexivity|].
  eexists. eexists.
  split; [apply (conversion_run Sample.arith Sample.world 0 _ [] ["out"]
                   ["pano.jpg"; "broken.jpg"] sample_started_fov_60_throw eq_refl)|].
  split; [apply (conversion_run Sample.arith Sample.world 0 _ [] ["out"]
                   ["pano.jpg"; "broken.jpg"] sample_started_fov_90_throw eq_refl)|].
  cbn [trace].
  split; [reflexivity|]. split; [reflexivity|].
  intros Heq.
  apply (f_equal
           (fun t : list (event Sample.world) =>
              match t with
              | cerr_usage _ _ _ shown :: _ => PrimFloat.ltb shown 70%float
              | _ => false
              end)) in Heq.
  cbn in Heq. discriminate Heq.
Qed.

Lemma fov_reaches_the_focal_file_and_the_usage_text_witness :
  option_map (fun out => written_images (trace out))
    (main Sample.world 0 ["pano_converter"; "-i"; "in"; "-o"; "out"; "-f"; "90"] [])
  = option_map (fun out => written_images (trace out))
      (main Sample.world 0 ["pano_converter"; "-i"; "in"; "-o"; "out"; "-f"; "60"] [])
  /\ option_map (fun out => map (@without_focal Sample.arith Sample.world) (trace out))
       (main Sample.world 0 ["pano_converter"; "-i"; "in"; "-o"; "out"; "-f"; "90"] [])
     = option_map (fun out => map (@without_focal Sample.arith Sample.world) (trace out))
         (main Sample.world 0 ["pano_converter"; "-i"; "in"; "-o"; "out"; "-f"; "60"] []).
Proof.
  destruct (fov_reaches_the_focal_file_and_the_usage_text
              Sample.arith Sample.world 0
              ["pano_converter"; "-i"; "in"; "-o"; "out"; "-f"; "60"]
              ["pano_converter"; "-i"; "in"; "-o"; "out"; "-f"; "90"]
              (float_of_Z 90) [] eq_refl eq_refl)
    as (Himgs & _ & _ & Htrace).
  split; [exact Himgs | exact (Htrace eq_refl)].
Defined.


Lemma demo_at_zero_resolution_never_ends_witness :
  main Sample.world 1000
    ["pano_converter"; "-i"; "in"; "-o"; "out"; "-r"; "0"; "-D"] [] = None.
Proof.
  apply (demo_at_zero_resolution_never_ends
           Sample.series_tan Sample.series_cos Sample.series_sin Sample.world 1000
           ["pano_converter"; "-i"; "in"; "-o"; "out"; "-r"; "0"; "-D"] []
           ["out"] ["pano.jpg"; "broken.jpg"] sample_started_demo_0 eq_refl eq_refl).
  vm_compute. discriminate.
Defined.

End Outcome_sample_runs.
